(** * yt-media-converter: the job orchestration engine of [server.js]

    A shallow embedding of the Express server's job registry, metadata
    probe, conversion orchestrator, download handler and cleanup sweep,
    with the properties the specification states about them.

    Conventions of the embedding:
    - JavaScript numbers are IEEE-754 binary64 values, modelled by the
      standard [spec_float] with [prec = 53] and [emax = 1024]; all
      arithmetic on [job.progress] is the correctly rounded one.
    - JavaScript strings are modelled by [string]; every character the
      code tests for (digits, [%], [.], [[download]], white space) is
      ASCII.
    - [const jobs = new Map()] holds references to job objects.  Objects
      live in a heap indexed by locations, the map sends ids to
      locations, and the closures of [performConversion] keep the
      location of their job, so that aliasing is as in the source.
    - Time stamps ([Date.now()], [new Date()]) are integers (ms). *)

From Stdlib Require Import ZArith Bool Ascii String.
From Stdlib Require Import Floats.SpecFloat.
From stdpp Require Import gmap strings list fin_maps pretty.

Local Open Scope Z_scope.

(* ===================================================================== *)
(** * Numbers *)
(* ===================================================================== *)

Module Number.

Definition prec : Z := 53.
Definition emax : Z := 1024.

(** A JavaScript number. *)
Definition number : Type := spec_float.

(** The number denoted by an integer literal (or by a run of decimal
    digits): the integer rounded to the nearest binary64 value. *)
Definition num (z : Z) : number := binary_normalize prec emax z 0 false.

(** The literal [0.7]: the binary64 value nearest to 7/10, which is
    [6305039478318694 * 2^-53]. *)
Definition lit_0_7 : number := S754_finite false 6305039478318694 (-53).

Definition mul (x y : number) : number := SFmul prec emax x y.

Definition is_nan (x : number) : bool :=
  match x with S754_nan => true | _ => false end.

(** [x <= y] and [x < y] on numbers (false when either is NaN). *)
Definition leb (x y : number) : bool := SFleb x y.
Definition ltb (x y : number) : bool := SFltb x y.

(** [Math.min(a, b)]: NaN if either argument is NaN, and [-0] counts
    as smaller than [+0]. *)
Definition Math_min (a b : number) : number :=
  if is_nan a || is_nan b then S754_nan
  else match SFcompare a b with
       | Some Lt => a
       | Some Gt => b
       | _ => match a with S754_zero true => a | _ => b end
       end.

(** [Math.max(a, b)]: NaN if either argument is NaN, and [+0] counts
    as larger than [-0]. *)
Definition Math_max (a b : number) : number :=
  if is_nan a || is_nan b then S754_nan
  else match SFcompare a b with
       | Some Gt => a
       | Some Lt => b
       | _ => match a with S754_zero false => a | _ => b end
       end.

(** [Number.isInteger(x)]. *)
Definition isInteger (x : number) : bool :=
  match x with
  | S754_zero _ => true
  | S754_finite _ m e =>
      if 0 <=? e then true
      else Z.eqb (Z.land (Zpos m) (Z.ones (- e))) 0
  | _ => false
  end.

(** Truthiness of a number: neither zero nor NaN. *)
Definition truthy (x : number) : bool :=
  match x with
  | S754_zero _ | S754_nan => false
  | _ => true
  end.

(** Non-negative and not NaN: [+0], a positive finite value or
    [+Infinity]. *)
Definition nonneg (x : number) : Prop :=
  match x with
  | S754_zero false | S754_infinity false | S754_finite false _ _ => True
  | _ => False
  end.

End Number.
Import Number.

(* ===================================================================== *)
(** * Strings *)
(* ===================================================================== *)

Module Str.

Local Open Scope string_scope.

Definition is_digit (c : ascii) : bool :=
  let n := nat_of_ascii c in (48 <=? n)%nat && (n <=? 57)%nat.

(** The class [\w]: letters, digits and underscore. *)
Definition is_word (c : ascii) : bool :=
  let n := nat_of_ascii c in
  is_digit c
  || ((65 <=? n)%nat && (n <=? 90)%nat)
  || ((97 <=? n)%nat && (n <=? 122)%nat)
  || (n =? 95)%nat.

(** The ASCII part of the class [\s]: tab, line feed, vertical tab,
    form feed, carriage return and space. *)
Definition is_white (c : ascii) : bool :=
  let n := nat_of_ascii c in
  ((9 <=? n)%nat && (n <=? 13)%nat) || (n =? 32)%nat.

(** [strip_prefix p s] is the rest of [s] after its prefix [p]. *)
Fixpoint strip_prefix (p s : string) : option string :=
  match p with
  | EmptyString => Some s
  | String a p' =>
      match s with
      | String b s' => if Ascii.eqb a b then strip_prefix p' s' else None
      | EmptyString => None
      end
  end.

(** [s.includes(pat)]. *)
Fixpoint includes (s pat : string) : bool :=
  match strip_prefix pat s with
  | Some _ => true
  | None =>
      match s with
      | String _ s' => includes s' pat
      | EmptyString => false
      end
  end.

(** [s.indexOf(pat)]; [None] stands for [-1]. *)
Fixpoint indexOf (s pat : string) : option nat :=
  match strip_prefix pat s with
  | Some _ => Some O
  | None =>
      match s with
      | String _ s' => S <$> indexOf s' pat
      | EmptyString => None
      end
  end.

(** [s.replace(pat, new)] for a string pattern: the first occurrence
    of [pat] is replaced (the replacements used by the server contain
    no [$]). *)
Fixpoint replace (s pat new : string) : string :=
  match strip_prefix pat s with
  | Some rest => new +:+ rest
  | None =>
      match s with
      | String c s' => String c (replace s' pat new)
      | EmptyString => EmptyString
      end
  end.

(** Longest prefix of characters satisfying [p], and the rest. *)
Fixpoint span (p : ascii -> bool) (s : string) : string * string :=
  match s with
  | String c s' =>
      if p c then let '(a, b) := span p s' in (String c a, b)
      else (EmptyString, s)
  | EmptyString => (EmptyString, EmptyString)
  end.

Fixpoint drop_while (p : ascii -> bool) (s : string) : string :=
  match s with
  | String c s' => if p c then drop_while p s' else s
  | EmptyString => EmptyString
  end.

Fixpoint rev_onto (s acc : string) : string :=
  match s with
  | String c s' => rev_onto s' (String c acc)
  | EmptyString => acc
  end.

Definition rev (s : string) : string := rev_onto s EmptyString.

(** [s.trim()]. *)
Definition trim (s : string) : string :=
  rev (drop_while is_white (rev (drop_while is_white s))).

(** [s.substring(0, n)]. *)
Fixpoint take (n : nat) (s : string) : string :=
  match n, s with
  | S n', String c s' => String c (take n' s')
  | _, _ => EmptyString
  end.

(** [s.replace(/[^\w\s-]/g, '')]. *)
Fixpoint remove_special (s : string) : string :=
  match s with
  | String c s' =>
      if is_word c || is_white c || Ascii.eqb c "-"
      then String c (remove_special s')
      else remove_special s'
  | EmptyString => EmptyString
  end.

(** [s.replace(/\s+/g, '_')] and [s.replace(/-+/g, '-')]: every
    maximal run of characters satisfying [p] becomes the single
    character [r]; [in_run] tells that the previous character was
    part of the current run. *)
Fixpoint squeeze_from (p : ascii -> bool) (r : ascii) (in_run : bool)
    (s : string) : string :=
  match s with
  | String c s' =>
      if p c then
        if in_run then squeeze_from p r true s'
        else String r (squeeze_from p r true s')
      else String c (squeeze_from p r false s')
  | EmptyString => EmptyString
  end.

Definition squeeze (p : ascii -> bool) (r : ascii) (s : string) : string :=
  squeeze_from p r false s.

(** Value of a run of decimal digits, read from the left. *)
Fixpoint digits_value (acc : Z) (s : string) : Z :=
  match s with
  | String c s' =>
      if is_digit c
      then digits_value (10 * acc + (Z.of_nat (nat_of_ascii c) - 48)) s'
      else acc
  | EmptyString => acc
  end.

(** The regular expression [/(\d+(?:\.\d+)?)%/] tried at the start of
    [s]; the result is capture group 1.  Both [\d+] are greedy, and no
    shorter choice can succeed because the character after a shorter
    run is a digit, which is neither [.] nor [%]. *)
Definition percent_here (s : string) : option string :=
  let '(d1, r1) := span is_digit s in
  match d1 with
  | EmptyString => None
  | _ =>
      match r1 with
      | String "%" _ => Some d1
      | String "." r2 =>
          let '(d2, r3) := span is_digit r2 in
          match d2, r3 with
          | String _ _, String "%" _ => Some (d1 +:+ "." +:+ d2)
          | _, _ => None
          end
      | _ => None
      end
  end.

(** [s.match(/(\d+(?:\.\d+)?)%/)]: the leftmost match; the result is
    [match[1]], [None] when [match] is [null]. *)
Fixpoint match_percent (s : string) : option string :=
  match percent_here s with
  | Some g => Some g
  | None =>
      match s with
      | String _ s' => match_percent s'
      | EmptyString => None
      end
  end.

End Str.

(** [parseInt(s)] for a string that starts with a decimal digit, which
    is the case of every [match[1]]: the leading run of digits is read
    in base ten and the rest (a fraction) is ignored; the integer is
    rounded to the nearest number when it has more than 53 bits.  A
    string without a leading digit gives NaN. *)
Definition parseInt (s : string) : number :=
  match s with
  | String c _ =>
      if Str.is_digit c then num (Str.digits_value 0 s) else S754_nan
  | EmptyString => S754_nan
  end.

(* ===================================================================== *)
(** * JSON values and the metadata record *)
(* ===================================================================== *)

(** A value produced by [JSON.parse]. *)
#[warnings="-register-all"]
Inductive json : Type :=
  | JNull
  | JBool (b : bool)
  | JNum (x : number)
  | JStr (s : string)
  | JArr (items : list json)
  | JObj (fields : list (string * json)).

Module Js.

Local Open Scope string_scope.

(** A property read gives a value or [undefined], which is [None]. *)
Definition value : Type := option json.

Definition truthy (v : json) : bool :=
  match v with
  | JNull => false
  | JBool b => b
  | JNum x => Number.truthy x
  | JStr s => negb (String.eqb s "")
  | JArr _ | JObj _ => true
  end.

Definition truthy_value (v : value) : bool :=
  match v with Some w => truthy w | None => false end.

(** [a || b]. *)
Definition or (a b : value) : value := if truthy_value a then a else b.

Fixpoint assoc (k : string) (fields : list (string * json)) : value :=
  match fields with
  | [] => None
  | (k', v) :: rest => if String.eqb k k' then Some v else assoc k rest
  end.

(** [v.k] for a value [v] that is not [null], where [k] is one of the
    names the server reads ([title], [thumbnail], [thumbnails],
    [duration], [uploader], [view_count], [url]): only an object can
    have it. *)
Definition get (v : json) (k : string) : value :=
  match v with
  | JObj fields => assoc k fields
  | _ => None
  end.

(** [v?.[0]]. *)
Definition first (v : value) : value :=
  match v with
  | None | Some JNull => None
  | Some (JArr items) => head items
  | Some (JStr (String c _)) => Some (JStr (String c ""))
  | Some (JObj fields) => assoc "0" fields
  | Some _ => None
  end.

(** [v?.k]. *)
Definition get_opt (v : value) (k : string) : value :=
  match v with
  | None | Some JNull => None
  | Some w => get w k
  end.

(** The value of [a || d] when [d] is a constant that is not
    [undefined].  *)
Definition or_else (a : value) (d : json) : json :=
  match or a (Some d) with Some w => w | None => d end.

End Js.

(** The object [getVideoMetadata] resolves with. *)
Record Metadata : Type := mkMetadata {
  title : json;
  thumbnail : json;
  duration : json;
  uploader : json;
  view_count : json
}.

(* ===================================================================== *)
(** * Jobs, the registry and the file system *)
(* ===================================================================== *)

(** [const JobStatus = { QUEUED, DOWNLOADING, CONVERTING, READY, ERROR }]. *)
Inductive JobStatus : Type :=
  | QUEUED | DOWNLOADING | CONVERTING | READY | ERROR.

#[global] Instance JobStatus_eq_dec : EqDecision JobStatus.
Proof. solve_decision. Defined.

(** A job object, as built by the prepare handler; [completedAt] is
    added by the close handler. *)
Record Job : Type := mkJob {
  job_id : string;
  job_url : string;
  metadata : Metadata;
  status : JobStatus;
  progress : number;
  createdAt : Z;
  outputPath : option string;
  error : option string;
  completedAt : option Z
}.

Definition set_status (s : JobStatus) (j : Job) : Job :=
  mkJob (job_id j) (job_url j) (metadata j) s (progress j) (createdAt j)
        (outputPath j) (error j) (completedAt j).

Definition set_progress (p : number) (j : Job) : Job :=
  mkJob (job_id j) (job_url j) (metadata j) (status j) p (createdAt j)
        (outputPath j) (error j) (completedAt j).

Definition set_outputPath (f : string) (j : Job) : Job :=
  mkJob (job_id j) (job_url j) (metadata j) (status j) (progress j)
        (createdAt j) (Some f) (error j) (completedAt j).

Definition set_error (e : string) (j : Job) : Job :=
  mkJob (job_id j) (job_url j) (metadata j) (status j) (progress j)
        (createdAt j) (outputPath j) (Some e) (completedAt j).

Definition set_completedAt (t : Z) (j : Job) : Job :=
  mkJob (job_id j) (job_url j) (metadata j) (status j) (progress j)
        (createdAt j) (outputPath j) (error j) (Some t).

(** Identity of a job object. *)
Definition loc : Type := positive.

(** The state of the server process and of its working directory:
    the job objects, the [jobs] map, the files on disk, and the
    argument lists of the [yt-dlp] processes spawned so far. *)
Record Server : Type := mkServer {
  heap : gmap loc Job;
  jobs : gmap string loc;
  disk : gset string;
  spawned : list (list string)
}.

Definition empty_server : Server := mkServer ∅ ∅ ∅ [].

(** Mutation of the fields of the object at [l]. *)
Definition update_job (l : loc) (f : Job -> Job) (srv : Server) : Server :=
  mkServer (alter f l (heap srv)) (jobs srv) (disk srv) (spawned srv).

(** [jobs.set(jobId, job)]. *)
Definition jobs_set (jobId : string) (l : loc) (srv : Server) : Server :=
  mkServer (heap srv) (<[jobId := l]> (jobs srv)) (disk srv) (spawned srv).

(** [jobs.delete(jobId)]. *)
Definition jobs_delete (jobId : string) (srv : Server) : Server :=
  mkServer (heap srv) (delete jobId (jobs srv)) (disk srv) (spawned srv).

(** [jobs.get(jobId)], followed to the object. *)
Definition jobs_get (jobId : string) (srv : Server) : option Job :=
  l ← jobs srv !! jobId; heap srv !! l.

(** [fs.existsSync(p)]; the empty path never exists. *)
Definition existsSync (srv : Server) (p : string) : bool :=
  negb (String.eqb p "") && bool_decide (p ∈ disk srv).

(** [fs.removeSync(p)] and [fs.remove(p)]: removing a path that does not
    exist succeeds and changes nothing. *)
Definition fs_remove (p : string) (srv : Server) : Server :=
  mkServer (heap srv) (jobs srv) (disk srv ∖ {[p]}) (spawned srv).

(** A file appears on disk (written by an external process). *)
Definition fs_write (p : string) (srv : Server) : Server :=
  mkServer (heap srv) (jobs srv) (disk srv ∪ {[p]}) (spawned srv).

(** [spawn('yt-dlp', args)]. *)
Definition spawn (args : list string) (srv : Server) : Server :=
  mkServer (heap srv) (jobs srv) (disk srv) (spawned srv ++ [args]).

(** Settling a promise: only the first [resolve] or [reject] counts. *)
Definition settle {A : Type} (r : A) (p : option A) : option A :=
  match p with Some _ => p | None => Some r end.

(* ===================================================================== *)
(** * Helpers of [server.js] *)
(* ===================================================================== *)

Local Open Scope string_scope.

(** [isValidYouTubeUrl(url)]: either pattern matches at the start of
    [url].  Both begin with [^https?:\/\/(www\.)?]; the optional parts
    are taken when present, as no alternative can match without them. *)
Definition strip_optional (p s : string) : string :=
  match Str.strip_prefix p s with Some r => r | None => s end.

Definition starts_with_id (s : string) : bool :=
  match s with
  | String c _ => Str.is_word c || Ascii.eqb c "-"
  | EmptyString => false
  end.

Definition matches_any (alternatives : list string) (url : string) : bool :=
  match Str.strip_prefix "http" url with
  | None => false
  | Some r1 =>
      match Str.strip_prefix "://" (strip_optional "s" r1) with
      | None => false
      | Some r2 =>
          let r3 := strip_optional "www." r2 in
          existsb (fun alt =>
                     match Str.strip_prefix alt r3 with
                     | Some r4 => starts_with_id r4
                     | None => false
                     end) alternatives
      end
  end.

Definition isValidYouTubeUrl (url : string) : bool :=
  matches_any ["youtube.com/watch?v="; "youtu.be/"; "youtube.com/embed/";
               "youtube.com/v/"] url
  || matches_any ["youtube.com/shorts/"] url.

(** [sanitizeFilename(filename)]. *)
Definition sanitizeFilename (filename : string) : string :=
  Str.take 100
    (Str.trim
       (Str.squeeze (Ascii.eqb "-") "-"
          (Str.squeeze Str.is_white "_" (Str.remove_special filename)))).

(* ===================================================================== *)
(** * The metadata probe: [getVideoMetadata] *)
(* ===================================================================== *)

(** What the event loop delivers to the callbacks registered on a child
    process and to the timer set next to it. *)
Inductive ProcEvent : Type :=
  | StdoutData (data : string)            (* ytDlp.stdout.on('data') *)
  | StderrData (data : string)            (* ytDlp.stderr.on('data') *)
  | FileWritten (path : string)           (* the process creates a file *)
  | Close (code : option Z) (now : Z)     (* ytDlp.on('close'); [None] is a
                                             [null] code (killed by a signal) *)
  | TimerFired.                           (* the setTimeout callback *)

(** The locals of one call of [getVideoMetadata]: the two buffers,
    whether [kill] was called, and the state of the returned promise
    ([inl] resolved, [inr] rejected with the message of the [Error]). *)
Record Probe : Type := mkProbe {
  p_stdout : string;
  p_stderr : string;
  p_killed : bool;
  p_promise : option (Metadata + string)
}.

(** A call of [setTimeout(callback, delay)], by its delay in ms. *)
Definition Timer : Type := Z.

(** Delay of the timer of [getVideoMetadata], in ms. *)
Definition METADATA_TIMEOUT : Z := 30000.

(** Delay of the timer of [performConversion], in ms. *)
Definition CONVERSION_TIMEOUT : Z := 600000.

(** Delay between the end of a download stream and the removal of the
    job and of its file, in ms. *)
Definition DOWNLOAD_GRACE : Z := 5000.

(** Age beyond which the cleanup endpoint removes a job, in ms. *)
Definition CLEANUP_MAX_AGE : Z := 60 * 60 * 1000.

Section Handlers.

(** [path.join(__dirname, 'temp')]. *)
Variable tempDir : string.

(** [JSON.parse]; [None] when it throws a [SyntaxError]. *)
Variable JSON_parse : string -> option json.

(** Conversion of a value to a string in a template literal. *)
Variable ToString : json -> string.

(** The body of the [try] block of the close handler; [None] when it
    throws (a reading of [.title] on [null]). *)
Definition read_metadata (stdout : string) : option Metadata :=
  match JSON_parse (Str.trim stdout) with
  | None | Some JNull => None
  | Some m =>
      Some {|
        title := Js.or_else (Js.get m "title") (JStr "Unknown Title");
        thumbnail :=
          Js.or_else
            (Js.or (Js.get m "thumbnail")
                   (Js.get_opt (Js.first (Js.get m "thumbnails")) "url"))
            JNull;
        duration := Js.or_else (Js.get m "duration") JNull;
        uploader := Js.or_else (Js.get m "uploader") (JStr "Unknown");
        view_count := Js.or_else (Js.get m "view_count") JNull
      |}
  end.

Definition probe_step (ev : ProcEvent) (p : Probe) : Probe :=
  match ev with
  | StdoutData data =>
      mkProbe (p_stdout p +:+ data) (p_stderr p) (p_killed p) (p_promise p)
  | StderrData data =>
      mkProbe (p_stdout p) (p_stderr p +:+ data) (p_killed p) (p_promise p)
  | FileWritten _ => p
  | Close code _ =>
      let outcome :=
        match code with
        | Some 0 =>
            match read_metadata (p_stdout p) with
            | Some m => inl m
            | None => inr "Failed to parse video metadata"
            end
        | _ => inr ("Failed to fetch metadata: " +:+ Str.trim (p_stderr p))
        end in
      mkProbe (p_stdout p) (p_stderr p) (p_killed p)
              (settle outcome (p_promise p))
  | TimerFired =>
      mkProbe (p_stdout p) (p_stderr p) true
              (settle (inr "Metadata fetch timeout") (p_promise p))
  end.

Definition probe_args (url : string) : list string :=
  ["--print-json"; "--no-download"; "--extract-flat"; url].

(** The timer [getVideoMetadata] sets; [TimerFired] is its callback. *)
Definition probe_timer : Timer := METADATA_TIMEOUT.

Definition probe_run (evs : list ProcEvent) (p : Probe) : Probe :=
  foldl (fun q ev => probe_step ev q) p evs.

(** [getVideoMetadata(url)], given the events of the process it
    spawns: the state of the promise once they are delivered, and the
    server with the spawn recorded. *)
Definition getVideoMetadata (url : string) (evs : list ProcEvent)
    (srv : Server) : Probe * Server :=
  (probe_run evs (mkProbe "" "" false None), spawn (probe_args url) srv).

(* =================================================================== *)
(** * The conversion orchestrator: [performConversion] *)
(* =================================================================== *)

(** The locals of one call of [performConversion] that its callbacks
    share: the job id and the job object, the format and output path,
    the [stderr] buffer, whether [kill] was called, and the state of
    the returned promise ([inl] resolved with the file, [inr] rejected
    with the message). *)
Record Conversion : Type := mkConversion {
  cv_jobId : string;
  cv_job : loc;
  cv_format : string;
  cv_outputPath : string;
  cv_stderr : string;
  cv_killed : bool;
  cv_promise : option (string + string)
}.

Definition formatSelector (quality : string) : string :=
  if String.eqb quality "1080p" then "best[height<=1080]"
  else if String.eqb quality "720p" then "best[height<=720]"
  else "best[height<=360]".

Definition ytDlpArgs (url format quality outputPath : string) : list string :=
  ["--no-playlist"; "--extract-flat"; "false"]
  ++ (if String.eqb format "mp3" then
        ["--extract-audio"; "--audio-format"; "mp3";
         "--audio-quality"; "192K";
         "--output"; Str.replace outputPath ".mp3" ".%(ext)s"]
      else if String.eqb format "mp4" then
        ["--format"; formatSelector quality;
         "--merge-output-format"; "mp4";
         "--output"; Str.replace outputPath ".mp4" ".%(ext)s"]
      else [])
  ++ [url].

(** The synchronous part of [performConversion(jobId, url, format,
    quality)], called at time [now]; [None] when it throws
    ['Job not found'].  [quality] is [None] when the argument is
    [undefined], which selects the default ['720p']. *)
Definition performConversion (jobId url format : string)
    (quality : option string) (now : Z) (srv : Server)
    : option (Conversion * Server) :=
  match jobs srv !! jobId with
  | None => None
  | Some l =>
      match heap srv !! l with
      | None => None
      | Some job =>
          let outputFilename :=
            sanitizeFilename
              (ToString (title (metadata job)) +:+ "_" +:+ pretty now) in
          let outputPath :=
            tempDir +:+ "/" +:+ outputFilename +:+ "." +:+ format in
          let srv1 :=
            jobs_set jobId l
              (update_job l
                 (fun j => set_progress (num 10) (set_status DOWNLOADING j))
                 srv) in
          let args :=
            ytDlpArgs url format (default "720p" quality) outputPath in
          Some (mkConversion jobId l format outputPath "" false None,
                spawn args srv1)
      end
  end.

(** The timer [performConversion] sets; [TimerFired] is its callback. *)
Definition conversion_timer : Timer := CONVERSION_TIMEOUT.

(** The value [Math.min(70, parseInt(match[1]) * 0.7)]. *)
Definition scaled (match1 : string) : number :=
  Math_min (num 70) (mul (parseInt match1) lit_0_7).

(** What the [stderr] data handler does to the job object. *)
Definition parse_progress (output : string) (job : Job) : Job :=
  if Str.includes output "100%" then
    set_progress (num 80) (set_status CONVERTING job)
  else if Str.includes output "%" then
    match Str.match_percent output with
    | Some match1 =>
        set_progress (Math_max (progress job) (scaled match1)) job
    | None => job
    end
  else job.

(** [ytDlp.stderr.on('data', ...)]. *)
Definition on_stderr_data (output : string) (st : Conversion * Server)
    : Conversion * Server :=
  let '(cv, srv) := st in
  let cv' :=
    mkConversion (cv_jobId cv) (cv_job cv) (cv_format cv) (cv_outputPath cv)
                 (cv_stderr cv +:+ output) (cv_killed cv) (cv_promise cv) in
  if Str.includes output "[download]" then
    (cv', jobs_set (cv_jobId cv) (cv_job cv)
            (update_job (cv_job cv) (parse_progress output) srv))
  else (cv', srv).

Definition possibleFiles (outputPath format : string) : list string :=
  [outputPath;
   Str.replace outputPath ("." +:+ format) ".mp3";
   Str.replace outputPath ("." +:+ format) ".mp4";
   Str.replace outputPath ("." +:+ format) ".webm";
   Str.replace outputPath ("." +:+ format) ".m4a"].

Definition with_promise (r : string + string) (cv : Conversion) : Conversion :=
  mkConversion (cv_jobId cv) (cv_job cv) (cv_format cv) (cv_outputPath cv)
               (cv_stderr cv) (cv_killed cv) (settle r (cv_promise cv)).

(** [stderr.trim() || 'Unknown conversion error']. *)
Definition conversion_error (stderr : string) : string :=
  let t := Str.trim stderr in
  if String.eqb t "" then "Unknown conversion error" else t.

(** [ytDlp.on('close', ...)], run at time [now]. *)
Definition on_close (code : option Z) (now : Z) (st : Conversion * Server)
    : Conversion * Server :=
  let '(cv, srv) := st in
  let l := cv_job cv in
  match code with
  | Some 0 =>
      let actualFile :=
        find (existsSync srv) (possibleFiles (cv_outputPath cv) (cv_format cv)) in
      match actualFile with
      | Some (String c f as file) =>
          (with_promise (inl file) cv,
           jobs_set (cv_jobId cv) l
             (update_job l
                (fun j =>
                   set_completedAt now
                     (set_outputPath file
                        (set_progress (num 100) (set_status READY j))))
                srv))
      | _ =>
          (with_promise (inr "Conversion completed but output file not found") cv,
           jobs_set (cv_jobId cv) l
             (update_job l
                (fun j => set_error "Output file not generated"
                            (set_status ERROR j))
                srv))
      end
  | _ =>
      (with_promise (inr ("Conversion failed: " +:+ Str.trim (cv_stderr cv))) cv,
       jobs_set (cv_jobId cv) l
         (update_job l
            (fun j => set_error (conversion_error (cv_stderr cv))
                        (set_status ERROR j))
            srv))
  end.

(** The callback of [setTimeout(..., 600000)]. *)
Definition on_timeout (st : Conversion * Server) : Conversion * Server :=
  let '(cv, srv) := st in
  let killed :=
    mkConversion (cv_jobId cv) (cv_job cv) (cv_format cv) (cv_outputPath cv)
                 (cv_stderr cv) true (cv_promise cv) in
  (with_promise (inr "Conversion timeout") killed,
   jobs_set (cv_jobId cv) (cv_job cv)
     (update_job (cv_job cv)
        (fun j => set_error "Conversion timeout" (set_status ERROR j))
        srv)).

(** One event delivered to the callbacks of a conversion.  No handler
    is registered on [stdout]. *)
Definition conv_step (ev : ProcEvent) (st : Conversion * Server)
    : Conversion * Server :=
  match ev with
  | StdoutData _ => st
  | StderrData output => on_stderr_data output st
  | FileWritten path => (st.1, fs_write path st.2)
  | Close code now => on_close code now st
  | TimerFired => on_timeout st
  end.

Definition conv_run (evs : list ProcEvent) (st : Conversion * Server)
    : Conversion * Server :=
  foldl (fun s ev => conv_step ev s) st evs.

(** The job object a conversion works on. *)
Definition conv_job (st : Conversion * Server) : option Job :=
  heap st.2 !! cv_job st.1.

End Handlers.

(* ===================================================================== *)
(** * The endpoints *)
(* ===================================================================== *)

(** What a handler sends back. *)
Inductive Response : Type :=
  | ErrorJson (code : Z) (message : string) (* res.status(code).json({ error }) *)
  | Prepared (jobId : string) (m : Metadata)
  | Started (jobId : string)
  | Status (status : JobStatus) (progress : number) (message : string)
           (error : option string) (m : Metadata)
  | FileStream (filePath : string)          (* fileStream.pipe(res) *)
  | Cleaned (cleanedJobs : nat).

Section Endpoints.

Variable tempDir : string.
Variable JSON_parse : string -> option json.
Variable ToString : json -> string.

(** [POST /api/prepare].  [url] is [req.body.url] ([None] when it is
    missing), [evs] the events of the probe process, [uuid] the value
    [uuidv4()] returns if it is called and [now] the time of
    [new Date()].  The response is [None] while [await] is pending. *)
Definition api_prepare (url : option string) (evs : list ProcEvent)
    (uuid : string) (now : Z) (srv : Server) : option Response * Server :=
  match url with
  | Some (String _ _ as u) =>
      if isValidYouTubeUrl u then
        let '(p, srv1) := getVideoMetadata JSON_parse u evs srv in
        match p_promise p with
        | None => (None, srv1)
        | Some (inl m) =>
            let l := fresh (dom (heap srv1)) in
            let job := mkJob uuid u m QUEUED (num 0) now None None None in
            (Some (Prepared uuid m),
             jobs_set uuid l
               (mkServer (<[l := job]> (heap srv1)) (jobs srv1) (disk srv1)
                         (spawned srv1)))
        | Some (inr message) =>
            (Some (ErrorJson 500 ("Failed to prepare conversion: " +:+ message)),
             srv1)
        end
      else (Some (ErrorJson 400 "Please provide a valid YouTube URL"), srv)
  | _ => (Some (ErrorJson 400 "Please provide a valid YouTube URL"), srv)
  end.

(** [POST /api/convert]: the response, the conversion started in the
    background (if any) and the new state.  A key of the map always
    has its object, so the last two [None] branches are never taken. *)
Definition api_convert (jobId : option string) (format : string)
    (quality : option string) (now : Z) (srv : Server)
    : Response * option Conversion * Server :=
  match jobId with
  | Some (String _ _ as i) =>
      match jobs srv !! i with
      | None => (ErrorJson 404 "Job not found", None, srv)
      | Some _ =>
          if String.eqb format "mp3" || String.eqb format "mp4" then
            match jobs_get i srv with
            | Some job =>
                match performConversion tempDir ToString i (job_url job)
                        format quality now srv with
                | Some (cv, srv1) => (Started i, Some cv, srv1)
                | None => (Started i, None, srv)
                end
            | None => (Started i, None, srv)
            end
          else (ErrorJson 400 "Invalid format. Use mp3 or mp4", None, srv)
      end
  | _ => (ErrorJson 404 "Job not found", None, srv)
  end.

(** [GET /api/status/:jobId]. *)
Definition api_status (jobId : string) (srv : Server) : Response :=
  match jobs_get jobId srv with
  | None => ErrorJson 404 "Job not found"
  | Some job =>
      let message :=
        match status job with
        | QUEUED => "Preparing conversion..."
        | DOWNLOADING => "Downloading video..."
        | CONVERTING =>
            "Converting to "
            +:+ (match outputPath job with
                 | Some p => if Str.includes p ".mp3" then "MP3" else "MP4"
                 | None => "MP4"
                 end)
            +:+ "..."
        | READY => "Conversion complete!"
        | ERROR => "Conversion failed"
        end in
      Status (status job) (progress job) message (error job) (metadata job)
  end.

(** [GET /api/download/:jobId]: the response and the state, which the
    handler itself never writes. *)
Definition api_download (jobId : string) (srv : Server) : Response * Server :=
  (match jobs_get jobId srv with
   | None => ErrorJson 404 "File not ready for download"
   | Some job =>
       match outputPath job with
       | Some (String _ _ as filePath) =>
           if decide (status job = READY) then
             if existsSync srv filePath then FileStream filePath
             else ErrorJson 404 "File not found"
           else ErrorJson 404 "File not ready for download"
       | _ => ErrorJson 404 "File not ready for download"
       end
   end, srv).

(** The callback the download handler passes to [setTimeout]. *)
Definition download_cleanup (filePath jobId : string) (srv : Server) : Server :=
  jobs_delete jobId (fs_remove filePath srv).

(** [fileStream.on('end', ...)]: the timer it sets, as a delay and a
    callback. *)
Definition on_stream_end (filePath jobId : string) : Timer * (Server -> Server) :=
  (DOWNLOAD_GRACE, download_cleanup filePath jobId).

(** The body of the loop of the cleanup endpoint for one entry of
    [jobs.entries()]. *)
Definition cleanup_entry (cutoff : Z) (jobId : string) (l : loc)
    (acc : Server * nat) : Server * nat :=
  let '(srv, cleanedJobs) := acc in
  match heap srv !! l with
  | Some job =>
      if (createdAt job <? cutoff)%Z then
        let srv1 :=
          match outputPath job with
          | Some filePath =>
              if existsSync srv filePath then fs_remove filePath srv else srv
          | None => srv
          end in
        (jobs_delete jobId srv1, S cleanedJobs)
      else acc
  | None => acc
  end.

(** The loop of the cleanup endpoint, for a given cutoff. *)
Definition sweep (cutoff : Z) (srv : Server) : Server * nat :=
  map_fold (cleanup_entry cutoff) (srv, O) (jobs srv).

(** [POST /api/cleanup], run at time [now]. *)
Definition api_cleanup (now : Z) (srv : Server) : Response * Server :=
  let '(srv', cleanedJobs) := sweep (now - CLEANUP_MAX_AGE)%Z srv in
  (Cleaned cleanedJobs, srv').

(** Everything that can change the state of the server: a request to
    an endpoint, an event of a conversion (whose job object exists and
    has left the status [QUEUED], since [performConversion] sets
    [DOWNLOADING] before it registers any callback), or a timer set by
    a download. *)
Inductive server_step : Server -> Server -> Prop :=
  | step_prepare url evs uuid now srv :
      server_step srv (api_prepare url evs uuid now srv).2
  | step_convert jobId format quality now srv :
      server_step srv (api_convert jobId format quality now srv).2
  | step_conversion ev cv srv job :
      heap srv !! cv_job cv = Some job -> status job <> QUEUED ->
      server_step srv (conv_step ev (cv, srv)).2
  | step_download_cleanup filePath jobId srv :
      server_step srv (download_cleanup filePath jobId srv)
  | step_cleanup now srv :
      server_step srv (api_cleanup now srv).2.

Definition reachable (srv : Server) : Prop :=
  rtc server_step empty_server srv.

End Endpoints.

(* ===================================================================== *)
(** * Predicates used by the statements *)
(* ===================================================================== *)

Definition terminal (s : JobStatus) : bool :=
  match s with READY | ERROR => true | _ => false end.

(** [lo <= x <= hi]. *)
Definition between (lo hi : Z) (x : number) : Prop :=
  leb (num lo) x = true /\ leb x (num hi) = true.

(** The values [job.progress] takes once a conversion has started,
    according to the status. *)
Definition progress_ok (j : Job) : Prop :=
  match status j with
  | QUEUED => False
  | DOWNLOADING => between 10 70 (progress j)
  | CONVERTING => progress j = num 80
  | READY => progress j = num 100
  | ERROR =>
      between 10 70 (progress j) \/ progress j = num 80 \/ progress j = num 100
  end.

(** The metadata of a job is complete: a title and an uploader that are
    not empty, the other fields being a value or [null]. *)
Definition populated (m : Metadata) : Prop :=
  Js.truthy (title m) = true /\ Js.truthy (uploader m) = true
  /\ (thumbnail m = JNull \/ Js.truthy (thumbnail m) = true)
  /\ (duration m = JNull \/ Js.truthy (duration m) = true)
  /\ (view_count m = JNull \/ Js.truthy (view_count m) = true).

(** The entries of the registry: ids with the objects they refer to. *)
Definition registry (srv : Server) : gmap string Job :=
  omap (fun l => heap srv !! l) (jobs srv).

(** An entry is older than the cutoff. *)
Definition expired (cutoff : Z) (j : Job) : Prop := (createdAt j < cutoff)%Z.

(* ===================================================================== *)
(** * Sample data *)
(* ===================================================================== *)

Definition demo_tempDir : string := "/app/temp".

(** Strings convert to themselves; the sample titles are strings. *)
Definition demo_ToString (v : json) : string :=
  match v with JStr s => s | _ => "" end.

Definition demo_metadata : Metadata :=
  mkMetadata (JStr "Big Buck Bunny") JNull (JNum (num 596))
             (JStr "Blender Foundation") JNull.

Definition demo_job : Job :=
  mkJob "job-1" "https://youtu.be/aqz-KE-bpKQ" demo_metadata QUEUED (num 0)
        1000 None None None.

(** A server holding one prepared job. *)
Definition demo_server : Server :=
  mkServer {[ 1%positive := demo_job ]} {[ "job-1" := 1%positive ]} ∅ [].

(** The closure of a conversion of the sample job to mp3, started at
    time 2000, and the server right after the start. *)
Definition demo_conversion : Conversion :=
  mkConversion "job-1" 1%positive "mp3"
               "/app/temp/Big_Buck_Bunny_2000.mp3" "" false None.

Definition demo_started : Server :=
  mkServer
    {[ 1%positive := set_progress (num 10) (set_status DOWNLOADING demo_job) ]}
    {[ "job-1" := 1%positive ]} ∅
    [ ["--no-playlist"; "--extract-flat"; "false"; "--extract-audio";
       "--audio-format"; "mp3"; "--audio-quality"; "192K"; "--output";
       "/app/temp/Big_Buck_Bunny_2000.%(ext)s";
       "https://youtu.be/aqz-KE-bpKQ"] ].

(* ===================================================================== *)
(** * The effect of an event on the job of a conversion *)
(* ===================================================================== *)

(** The ways an event delivered to a conversion changes the fields of
    its job object: not at all, by the progress parser, by the close
    handler (success or failure) or by the timer. *)
Inductive job_change : ProcEvent -> Job -> Job -> Prop :=
  | change_none ev j :
      job_change ev j j
  | change_progress output j :
      Str.includes output "[download]" = true ->
      job_change (StderrData output) j (parse_progress output j)
  | change_ready now file j :
      job_change (Close (Some 0%Z) now) j
        (set_completedAt now
           (set_outputPath file (set_progress (num 100) (set_status READY j))))
  | change_failed code now e j :
      job_change (Close code now) j (set_error e (set_status ERROR j))
  | change_timeout j :
      job_change TimerFired j
        (set_error "Conversion timeout" (set_status ERROR j)).

(** The event is the exit of the process. *)
Definition is_close (ev : ProcEvent) : bool :=
  match ev with Close _ _ => true | _ => false end.

(** The entry of the registry that refers to [l] is older than the
    cutoff, as the cleanup loop tests it. *)
Definition is_expired (cutoff : Z) (srv : Server) (l : loc) : bool :=
  match heap srv !! l with
  | Some job => (createdAt job <? cutoff)%Z
  | None => false
  end.

#[global] Instance expired_dec (cutoff : Z) (j : Job) : Decision (expired cutoff j).
Proof. unfold expired. apply _. Defined.

(** What the loop has done after the entries [m]: the objects are
    untouched, the expired entries of [m] are gone from the map, and
    the files named by them are gone from disk. *)
Definition swept (cutoff : Z) (srv : Server) (acc : Server * nat)
    (m : gmap string loc) : Prop :=
  heap acc.1 = heap srv
  /\ spawned acc.1 = spawned srv
  /\ (forall i,
        jobs acc.1 !! i
        = match m !! i with
          | Some l => if is_expired cutoff srv l then None else jobs srv !! i
          | None => jobs srv !! i
          end)
  /\ (forall p,
        existsSync acc.1 p = true <->
        existsSync srv p = true
        /\ ~ exists i l job,
              m !! i = Some l /\ heap srv !! l = Some job
              /\ expired cutoff job /\ outputPath job = Some p).

(** The progress of a job object, started or not. *)
Definition progress_inv (j : Job) : Prop :=
  (status j = QUEUED /\ progress j = num 0) \/ progress_ok j.

Definition heap_progress (srv : Server) : Prop :=
  forall l job, heap srv !! l = Some job -> progress_inv job.

(** Every job object carries complete metadata. *)
Definition heap_populated (srv : Server) : Prop :=
  forall l job, heap srv !! l = Some job -> populated (metadata job).

(** The event only carries data: it settles no promise. *)
Definition is_data (ev : ProcEvent) : bool :=
  match ev with
  | StdoutData _ | StderrData _ | FileWritten _ => true
  | Close _ _ | TimerFired => false
  end.

(** The concatenation of the chunks written to [stdout], and of those
    written to [stderr]. *)
Fixpoint stdout_of (evs : list ProcEvent) : string :=
  match evs with
  | StdoutData d :: rest => d +:+ stdout_of rest
  | _ :: rest => stdout_of rest
  | [] => ""
  end.

Fixpoint stderr_of (evs : list ProcEvent) : string :=
  match evs with
  | StderrData d :: rest => d +:+ stderr_of rest
  | _ :: rest => stderr_of rest
  | [] => ""
  end.

(** A stand-in for [JSON.parse] in the examples: it reads [null], and
    takes any text that starts with a brace for the record of the
    sample video. *)
Definition demo_parse (s : string) : option json :=
  if String.eqb s "null" then Some JNull
  else match s with
       | String "{" _ =>
           Some (JObj [("title", JStr "Big Buck Bunny");
                       ("uploader", JStr "Blender Foundation");
                       ("duration", JNum (num 596))])
       | _ => None
       end.
(* ===================================================================== *)
(** * Further definitions: characters of a text, the health endpoint *)
(* ===================================================================== *)

(** Every character of [s] satisfies [p]. *)
Fixpoint all_chars (p : ascii -> bool) (s : string) : bool :=
  match s with
  | String c s' => p c && all_chars p s'
  | EmptyString => true
  end.

(** No two adjacent characters of [s] both satisfy [p]; [after] tells
    that the character before [s] satisfies [p]. *)
Fixpoint no_run (p : ascii -> bool) (after : bool) (s : string) : bool :=
  match s with
  | String c s' => negb (after && p c) && no_run p (p c) s'
  | EmptyString => true
  end.

(** The characters a sanitized file name is made of. *)
Definition filename_char (c : ascii) : bool :=
  Str.is_word c || Ascii.eqb c "-".

Definition not_dot (c : ascii) : bool := negb (Ascii.eqb c ".").

(** The five ways a valid URL continues after the scheme and the
    optional [www.]. *)
Definition youtube_prefixes : list string :=
  ["youtube.com/watch?v="; "youtu.be/"; "youtube.com/embed/";
   "youtube.com/v/"; "youtube.com/shorts/"].

(** The body of the answer of [GET /api/health]; [uptime] is the value
    of [process.uptime()]. *)
Record Health : Type := mkHealth {
  h_status : string;
  h_jobs : nat;
  h_uptime : number;
  h_message : string
}.

Definition api_health (uptime : number) (srv : Server) : Health :=
  mkHealth "ok" (size (jobs srv)) uptime
           "Educational YouTube converter demo is running".

(** The conversion events of [evs] hold no exit of the process. *)
Definition no_close (evs : list ProcEvent) : bool :=
  forallb (fun ev => negb (is_close ev)) evs.

(** What each status promises about the other fields of a job. *)
Definition fields_ok (j : Job) : Prop :=
  match status j with
  | QUEUED => outputPath j = None /\ error j = None /\ completedAt j = None
  | READY =>
      (exists c f, outputPath j = Some (String c f))
      /\ is_Some (completedAt j)
  | ERROR => exists c e, error j = Some (String c e)
  | _ => True
  end.

Definition heap_fields (srv : Server) : Prop :=
  forall l job, heap srv !! l = Some job -> fields_ok job.

(* ===================================================================== *)
(** * Facts about numbers *)
(* ===================================================================== *)

Section NumberFacts.

Local Open Scope Z_scope.

Ltac fold_pos_compare :=
  repeat match goal with
    | |- context [PosDef.Pos.compare_cont Eq ?a ?b] =>
        change (PosDef.Pos.compare_cont Eq a b) with (Pos.compare a b)
    end.

Lemma SFcompare_antisym (x y : number) :
  SFcompare y x = CompOpp <$> SFcompare x y.
Proof.
  destruct x as [[]|[]| |[] mx ex], y as [[]|[]| |[] my ey]; cbn; try reflexivity.
  all: rewrite (Z.compare_antisym ex ey);
       destruct (ex ?= ey)%Z; cbn; try reflexivity;
       fold_pos_compare;
       rewrite (Pos.compare_antisym mx my); destruct (mx ?= my)%positive; reflexivity.
Qed.

Lemma SFcompare_refl (x : number) :
  is_nan x = false -> SFcompare x x = Some Eq.
Proof.
  destruct x as [[]|[]| |[] m e]; cbn; try done; intros _;
    fold_pos_compare; rewrite Z.compare_refl, Pos.compare_refl; reflexivity.
Qed.

(** The comparison is transitive, strictly so when one side is strict. *)
Lemma SFcompare_trans (x y z : number) :
  SFcompare x y = Some Lt \/ SFcompare x y = Some Eq ->
  SFcompare y z = Some Lt \/ SFcompare y z = Some Eq ->
  (SFcompare x z = Some Lt \/ SFcompare x z = Some Eq)
  /\ (SFcompare x y = Some Lt \/ SFcompare y z = Some Lt ->
      SFcompare x z = Some Lt).
Proof.
  destruct x as [[]|[]| |[] mx ex], y as [[]|[]| |[] my ey], z as [[]|[]| |[] mz ez];
    cbn; intros [H1|H1] [H2|H2]; try discriminate;
    try (split; [auto|intros [?|?]; auto; discriminate]; fail).
  all: revert H1 H2; fold_pos_compare;
    destruct (Z.compare_spec ex ey), (Z.compare_spec ey ez), (Z.compare_spec ex ez);
    try lia; cbn; try discriminate;
    destruct (Pos.compare_spec mx my), (Pos.compare_spec my mz), (Pos.compare_spec mx mz);
    try lia; cbn; try discriminate;
    intros _ _; (split; [auto|intros [?|?]; auto; discriminate]).
Qed.

Lemma leb_spec (x y : number) :
  leb x y = true <-> SFcompare x y = Some Lt \/ SFcompare x y = Some Eq.
Proof.
  unfold leb, SFleb. destruct (SFcompare x y) as [[]|]; intuition congruence.
Qed.

Lemma ltb_spec (x y : number) : ltb x y = true <-> SFcompare x y = Some Lt.
Proof.
  unfold ltb, SFltb. destruct (SFcompare x y) as [[]|]; intuition congruence.
Qed.

Lemma leb_refl (x : number) : is_nan x = false -> leb x x = true.
Proof. intros H. apply leb_spec. right. apply SFcompare_refl, H. Qed.

Lemma leb_trans (x y z : number) :
  leb x y = true -> leb y z = true -> leb x z = true.
Proof.
  rewrite !leb_spec. intros H1 H2. apply (SFcompare_trans x y z H1 H2).
Qed.

Lemma leb_ltb_trans (x y z : number) :
  leb x y = true -> ltb y z = true -> ltb x z = true.
Proof.
  rewrite !leb_spec, !ltb_spec. intros H1 H2.
  apply (SFcompare_trans x y z H1); auto.
Qed.

Lemma ltb_leb_trans (x y z : number) :
  ltb x y = true -> leb y z = true -> ltb x z = true.
Proof.
  rewrite !leb_spec, !ltb_spec. intros H1 H2.
  apply (SFcompare_trans x y z); auto.
Qed.

Lemma ltb_leb (x y : number) : ltb x y = true -> leb x y = true.
Proof. rewrite leb_spec, ltb_spec. auto. Qed.

(** A strict inequality excludes the converse. *)
Lemma ltb_not_leb (x y : number) : ltb x y = true -> leb y x = false.
Proof.
  rewrite ltb_spec. intros H. unfold leb, SFleb.
  rewrite (SFcompare_antisym x y), H. reflexivity.
Qed.

(** The literal [0.7] is the correctly rounded quotient of 7 by 10. *)
Example lit_0_7_nearest : SFdiv prec emax (num 7) (num 10) = lit_0_7.
Proof. vm_compute. reflexivity. Qed.

(** ** Rounding keeps the sign *)

Lemma shr_1_nonneg (r : shr_record) : 0 <= shr_m r -> 0 <= shr_m (shr_1 r).
Proof.
  destruct r as [m r s]. cbn [shr_m]. intros Hm.
  destruct m as [|[p|p|]|p]; cbn; lia.
Qed.

Lemma iter_shr_1_nonneg (p : positive) (r : shr_record) :
  0 <= shr_m r -> 0 <= shr_m (SpecFloat.iter_pos shr_1 p r).
Proof.
  revert r. induction p as [p IH|p IH|]; intros r Hr; cbn.
  - apply IH, IH, shr_1_nonneg, Hr.
  - apply IH, IH, Hr.
  - apply shr_1_nonneg, Hr.
Qed.

Lemma shr_fexp_nonneg (m e : Z) (l : location) :
  0 <= m -> 0 <= shr_m (shr_fexp prec emax m e l).1.
Proof.
  intros Hm. unfold shr_fexp, shr.
  assert (H0 : 0 <= shr_m (shr_record_of_loc m l)).
  { destruct l as [|[]]; cbn; exact Hm. }
  destruct (fexp prec emax (Zdigits2 m + e) - e); cbn [fst]; try exact H0.
  apply iter_shr_1_nonneg, H0.
Qed.

Lemma round_nearest_even_nonneg (m : Z) (l : location) :
  0 <= m -> 0 <= round_nearest_even m l.
Proof.
  intros Hm. destruct l as [|[]]; cbn; try lia.
  destruct (Z.even m); lia.
Qed.

Lemma binary_round_aux_nonneg (m e : Z) (l : location) :
  0 <= m -> nonneg (binary_round_aux prec emax false m e l).
Proof.
  intros Hm. unfold binary_round_aux.
  pose proof (shr_fexp_nonneg m e l Hm) as H1.
  destruct (shr_fexp prec emax m e l) as [mrs' e']. cbn [fst] in H1.
  pose proof (shr_fexp_nonneg _ e' loc_Exact
                (round_nearest_even_nonneg _ (loc_of_shr_record mrs') H1)) as H2.
  destruct (shr_fexp prec emax _ e' loc_Exact) as [mrs'' e'']. cbn [fst] in H2.
  destruct (shr_m mrs'') as [|p|p]; [exact I| |lia].
  destruct (e'' <=? emax - prec); exact I.
Qed.

Lemma num_nonneg (z : Z) : 0 <= z -> nonneg (num z).
Proof.
  intros Hz. unfold num, binary_normalize.
  destruct z as [|p|p]; [exact I| |lia].
  unfold binary_round.
  destruct (shl_align p 0 _) as [mz ez].
  apply binary_round_aux_nonneg. lia.
Qed.

Lemma mul_nonneg (x : number) : nonneg x -> nonneg (mul x lit_0_7).
Proof.
  destruct x as [[]|[]| |[] m e]; cbn; try done. intros _.
  apply binary_round_aux_nonneg. lia.
Qed.

Lemma nonneg_not_nan (x : number) : nonneg x -> is_nan x = false.
Proof. destruct x as [[]|[]| |[] m e]; cbn; done. Qed.

Lemma nonneg_compare (x y : number) :
  nonneg x -> nonneg y -> is_Some (SFcompare x y).
Proof.
  destruct x as [[]|[]| |[] mx ex], y as [[]|[]| |[] my ey]; cbn; try done; eauto.
Qed.

Lemma nonneg_ge_0 (x : number) : nonneg x -> leb (num 0) x = true.
Proof. destruct x as [[]|[]| |[] m e]; cbn; done. Qed.

(** A number that is at least ten is not NaN and not negative. *)
Lemma ge_10_nonneg (x : number) : leb (num 10) x = true -> nonneg x.
Proof.
  destruct x as [[]|[]| |[] m e]; vm_compute; try done.
Qed.

(** ** [Math.min] and [Math.max] *)

Lemma Math_min_cases (a b : number) :
  nonneg a -> nonneg b ->
  (Math_min a b = a /\ leb a b = true) \/ (Math_min a b = b /\ leb b a = true).
Proof.
  intros Ha Hb. unfold Math_min.
  rewrite (nonneg_not_nan a Ha), (nonneg_not_nan b Hb). cbn [orb].
  destruct (nonneg_compare a b Ha Hb) as [c Hc]. rewrite Hc.
  destruct c.
  - right. split.
    + destruct a as [[]| | |]; try reflexivity. destruct Ha.
    + apply leb_spec. right. rewrite (SFcompare_antisym a b), Hc. reflexivity.
  - left. split; [reflexivity|]. apply leb_spec. auto.
  - right. split; [reflexivity|].
    apply leb_spec. left. rewrite (SFcompare_antisym a b), Hc. reflexivity.
Qed.

Lemma Math_max_cases (a b : number) :
  nonneg a -> nonneg b ->
  (Math_max a b = a /\ leb b a = true) \/ (Math_max a b = b /\ leb a b = true).
Proof.
  intros Ha Hb. unfold Math_max.
  rewrite (nonneg_not_nan a Ha), (nonneg_not_nan b Hb). cbn [orb].
  destruct (nonneg_compare a b Ha Hb) as [c Hc]. rewrite Hc.
  assert (Hba : c = Eq \/ c = Gt -> leb b a = true).
  { intros Hor. apply leb_spec. rewrite (SFcompare_antisym a b), Hc.
    destruct Hor; subst c; cbn; auto. }
  destruct c.
  - destruct a as [[]| | |]; try (right; split; [reflexivity|apply leb_spec; auto]).
    left. split; [reflexivity|]. apply Hba. auto.
  - right. split; [reflexivity|]. apply leb_spec. auto.
  - left. split; [reflexivity|]. apply Hba. auto.
Qed.

Lemma Math_max_ge_l (a b : number) :
  nonneg a -> nonneg b -> leb a (Math_max a b) = true.
Proof.
  intros Ha Hb. destruct (Math_max_cases a b Ha Hb) as [[-> _]|[-> H]].
  - apply leb_refl, nonneg_not_nan, Ha.
  - exact H.
Qed.

End NumberFacts.
(* ===================================================================== *)
(** * Facts about strings and the percentage pattern *)
(* ===================================================================== *)

Section StringFacts.

Local Open Scope string_scope.

Lemma digits_value_nonneg (s : string) (acc : Z) :
  (0 <= acc)%Z -> (0 <= Str.digits_value acc s)%Z.
Proof.
  revert acc. induction s as [|c s IH]; intros acc Hacc; cbn; [exact Hacc|].
  destruct (Str.is_digit c) eqn:Hc; [|exact Hacc].
  apply IH. unfold Str.is_digit in Hc.
  apply andb_true_iff in Hc as [Hlo _]. apply Nat.leb_le in Hlo. lia.
Qed.

Lemma parseInt_nonneg (c : ascii) (s : string) :
  Str.is_digit c = true -> nonneg (parseInt (String c s)).
Proof.
  intros Hc. unfold parseInt. rewrite Hc.
  apply num_nonneg, digits_value_nonneg. lia.
Qed.

Lemma span_head (p : ascii -> bool) (s : string) (c : ascii) (r : string) :
  (Str.span p s).1 = String c r -> p c = true.
Proof.
  destruct s as [|a s]; cbn; [discriminate|].
  destruct (p a) eqn:Ha; [|discriminate].
  destruct (Str.span p s). cbn. congruence.
Qed.

Lemma span_app (p : ascii -> bool) (s : string) :
  s = (Str.span p s).1 +:+ (Str.span p s).2.
Proof.
  induction s as [|a s IH]; cbn; [reflexivity|].
  destruct (p a); [|reflexivity].
  destruct (Str.span p s) as [x y]. cbn [fst snd] in *.
  change (String a x +:+ y) with (String a (x +:+ y)). rewrite <- IH.
  reflexivity.
Qed.

(** A match of the pattern captures a text that starts with a digit. *)
Lemma percent_here_digit (s g : string) :
  Str.percent_here s = Some g ->
  exists c r, g = String c r /\ Str.is_digit c = true.
Proof.
  unfold Str.percent_here.
  pose proof (span_head Str.is_digit s) as Hhead.
  destruct (Str.span Str.is_digit s) as [d1 r1]. cbn [fst] in Hhead.
  destruct d1 as [|c d1]; [discriminate|].
  specialize (Hhead c d1 eq_refl).
  destruct r1 as [|a r2]; [discriminate|].
  destruct (Ascii.eqb_spec a "%") as [->|Hne1].
  { intros [= <-]. eauto. }
  destruct (Ascii.eqb_spec a ".") as [->|Hne2].
  { destruct (Str.span Str.is_digit r2) as [d2 r3].
    destruct d2 as [|c2 d2]; [discriminate|].
    destruct r3 as [|b r4]; [discriminate|].
    destruct (Ascii.eqb_spec b "%") as [->|Hne3].
    - intros [= <-]. cbn. eauto.
    - destruct b as [[] [] [] [] [] [] [] []]; try discriminate.
      congruence. }
  destruct a as [[] [] [] [] [] [] [] []]; try discriminate; congruence.
Qed.

Lemma match_percent_digit (s g : string) :
  Str.match_percent s = Some g ->
  exists c r, g = String c r /\ Str.is_digit c = true.
Proof.
  induction s as [|a s IH]; cbn [Str.match_percent].
  - destruct (Str.percent_here "") eqn:H; [|discriminate].
    intros [= <-]. eapply percent_here_digit, H.
  - destruct (Str.percent_here (String a s)) eqn:H.
    + intros [= <-]. eapply percent_here_digit, H.
    + exact IH.
Qed.

Lemma str_app_assoc (a b c : string) : (a +:+ b) +:+ c = a +:+ (b +:+ c).
Proof.
  induction a as [|x a IH]; [reflexivity|].
  change (String x ((a +:+ b) +:+ c) = String x (a +:+ (b +:+ c))).
  rewrite IH. reflexivity.
Qed.

Lemma includes_cons (c : ascii) (s pat : string) :
  Str.includes s pat = true -> Str.includes (String c s) pat = true.
Proof.
  intros H. cbn [Str.includes].
  destruct (Str.strip_prefix pat (String c s)); [reflexivity|exact H].
Qed.

Lemma includes_app_percent (a r : string) :
  Str.includes (a +:+ String "%" r) "%" = true.
Proof.
  induction a as [|c a IH]; [reflexivity|].
  cbn [String.append]. apply includes_cons, IH.
Qed.

Lemma percent_here_includes (s g : string) :
  Str.percent_here s = Some g -> Str.includes s "%" = true.
Proof.
  unfold Str.percent_here.
  pose proof (span_app Str.is_digit s) as E1.
  destruct (Str.span Str.is_digit s) as [d1 r1]. cbn [fst snd] in E1.
  rewrite E1. clear E1.
  destruct d1 as [|c d1]; [discriminate|].
  destruct r1 as [|a r2]; [discriminate|].
  destruct (Ascii.eqb_spec a "%") as [->|Hne1].
  { intros _. apply includes_app_percent. }
  destruct (Ascii.eqb_spec a ".") as [->|Hne2].
  { pose proof (span_app Str.is_digit r2) as E2.
    destruct (Str.span Str.is_digit r2) as [d2 r3]. cbn [fst snd] in E2.
    rewrite E2. clear E2.
    destruct d2 as [|c2 d2]; [discriminate|].
    destruct r3 as [|b r4]; [discriminate|].
    destruct (Ascii.eqb_spec b "%") as [->|Hne3].
    - intros _.
      replace (String c d1 +:+ String "." (String c2 d2 +:+ String "%" r4))
        with ((String c d1 +:+ String "." (String c2 d2)) +:+ String "%" r4).
      + apply includes_app_percent.
      + rewrite str_app_assoc. reflexivity.
    - destruct b as [[] [] [] [] [] [] [] []]; try discriminate.
      congruence. }
  destruct a as [[] [] [] [] [] [] [] []]; try discriminate; congruence.
Qed.

(** A text the pattern matches contains a percent sign, so the test
    [output.includes('%')] that guards the match never hides one. *)
Lemma match_percent_includes (s g : string) :
  Str.match_percent s = Some g -> Str.includes s "%" = true.
Proof.
  induction s as [|a s IH]; cbn [Str.match_percent].
  - destruct (Str.percent_here "") eqn:H; [|discriminate].
    intros _. eapply percent_here_includes, H.
  - destruct (Str.percent_here (String a s)) eqn:H.
    + intros _. eapply percent_here_includes, H.
    + intros Hm. apply includes_cons, (IH Hm).
Qed.

(** The scaled value of a matched percentage is a number between 0
    and 70. *)
Lemma scaled_range (s g : string) :
  Str.match_percent s = Some g ->
  nonneg (scaled g) /\ leb (scaled g) (num 70) = true.
Proof.
  intros Hm. destruct (match_percent_digit s g Hm) as (c & r & -> & Hc).
  unfold scaled.
  pose proof (mul_nonneg _ (parseInt_nonneg c r Hc)) as Hx.
  assert (H70 : nonneg (num 70)) by (apply num_nonneg; lia).
  destruct (Math_min_cases (num 70) _ H70 Hx) as [[-> _]|[-> Hle]].
  - split; [exact H70|]. apply leb_refl. reflexivity.
  - split; assumption.
Qed.

Lemma strip_prefix_self (p : string) : Str.strip_prefix p p = Some "".
Proof.
  induction p as [|x p IH]; cbn; [reflexivity|].
  rewrite Ascii.eqb_refl. exact IH.
Qed.

Lemma str_app_nil_r (s : string) : s +:+ "" = s.
Proof.
  induction s as [|x s IH]; [reflexivity|].
  change (String x (s +:+ "") = String x s). rewrite IH. reflexivity.
Qed.

(** Replacing a pattern whose first occurrence is the end of the text
    replaces that end. *)
Lemma replace_suffix (base pat new : string) :
  Str.indexOf (base +:+ pat) pat = Some (String.length base) ->
  Str.replace (base +:+ pat) pat new = base +:+ new.
Proof.
  induction base as [|c base IH].
  - intros _. change ("" +:+ pat) with pat. change ("" +:+ new) with new.
    rewrite <- (str_app_nil_r new) at 2.
    destruct pat as [|a pat]; cbn [Str.replace];
      rewrite strip_prefix_self; reflexivity.
  - change (String c base +:+ pat) with (String c (base +:+ pat)).
    cbn [Str.indexOf Str.replace String.length].
    destruct (Str.strip_prefix pat (String c (base +:+ pat))); [discriminate|].
    destruct (Str.indexOf (base +:+ pat) pat) as [n|] eqn:Hn; [|discriminate].
    cbn. intros [= ->]. rewrite IH; reflexivity.
Qed.

End StringFacts.
(* ===================================================================== *)
(** * Basic facts about the store *)
(* ===================================================================== *)

Lemma conv_job_update (l : loc) (f : Job -> Job) (jobId : string) (srv : Server) :
  heap (jobs_set jobId l (update_job l f srv)) !! l = f <$> heap srv !! l.
Proof. simpl. apply lookup_alter_eq. Qed.

Lemma jobs_set_lookup (l : loc) (jobId : string) (srv : Server) :
  jobs (jobs_set jobId l srv) !! jobId = Some l.
Proof. simpl. apply lookup_insert_eq. Qed.

(** The sample conversion is what [performConversion] returns. *)
Example demo_conversion_started :
  performConversion demo_tempDir demo_ToString "job-1"
    "https://youtu.be/aqz-KE-bpKQ" "mp3" None 2000 demo_server
  = Some (demo_conversion, demo_started).
Proof. vm_compute. reflexivity. Qed.

(* ===================================================================== *)
(** * One event of a conversion *)
(* ===================================================================== *)

Section ConversionSteps.

Local Open Scope string_scope.

Lemma conv_step_change (ev : ProcEvent) (cv : Conversion) (srv : Server)
    (job : Job) :
  heap srv !! cv_job cv = Some job ->
  cv_job (conv_step ev (cv, srv)).1 = cv_job cv
  /\ exists job',
       conv_job (conv_step ev (cv, srv)) = Some job' /\ job_change ev job job'.
Proof.
  intros Hjob. unfold conv_job.
  destruct ev as [data|output|path|code now|]; cbn [conv_step].
  - split; [reflexivity|]. exists job. split; [exact Hjob|constructor].
  - unfold on_stderr_data.
    destruct (Str.includes output "[download]") eqn:Hd; cbn [fst snd].
    + split; [reflexivity|].
      cbn [cv_job]. rewrite conv_job_update, Hjob.
      eexists. split; [reflexivity|]. constructor. exact Hd.
    + split; [reflexivity|]. exists job. split; [exact Hjob|constructor].
  - split; [reflexivity|]. exists job. split; [exact Hjob|constructor].
  - unfold on_close.
    destruct code as [[| |]|];
      try (cbn [fst snd with_promise cv_job]; split; [reflexivity|];
           rewrite conv_job_update, Hjob; eexists; split; [reflexivity|];
           constructor).
    destruct (find _ _) as [[|c f]|];
      cbn [fst snd with_promise cv_job]; (split; [reflexivity|]);
      rewrite conv_job_update, Hjob; eexists; (split; [reflexivity|]);
      constructor.
  - unfold on_timeout. cbn [fst snd with_promise cv_job].
    split; [reflexivity|].
    rewrite conv_job_update, Hjob. eexists. split; [reflexivity|].
    constructor.
Qed.

(** The progress parser keeps a stored progress value at or below 70
    there, and leaves the values 80 and 100 alone. *)
Lemma max_scaled (p x : number) :
  nonneg x -> leb x (num 70) = true ->
  (between 10 70 p -> between 10 70 (Math_max p x))
  /\ (p = num 80 -> Math_max p x = num 80)
  /\ (p = num 100 -> Math_max p x = num 100).
Proof.
  intros Hx Hx70. split; [|split].
  - intros [Hlo Hhi].
    destruct (Math_max_cases p x (ge_10_nonneg p Hlo) Hx) as [[-> _]|[-> Hpx]].
    + split; assumption.
    + split; [eapply leb_trans; eassumption|assumption].
  - intros ->.
    destruct (Math_max_cases (num 80) x I Hx) as [[-> _]|[_ H80]];
      [reflexivity|].
    pose proof (leb_trans _ _ _ H80 Hx70) as Habs. vm_compute in Habs.
    discriminate.
  - intros ->.
    destruct (Math_max_cases (num 100) x I Hx) as [[-> _]|[_ H100]];
      [reflexivity|].
    pose proof (leb_trans _ _ _ H100 Hx70) as Habs. vm_compute in Habs.
    discriminate.
Qed.

Lemma parse_progress_ok (output : string) (j : Job) :
  progress_ok j -> progress_ok (parse_progress output j).
Proof.
  intros Hok. unfold parse_progress.
  destruct (Str.includes output "100%"); [reflexivity|].
  destruct (Str.includes output "%"); [|exact Hok].
  destruct (Str.match_percent output) as [g|] eqn:Hm; [|exact Hok].
  destruct (scaled_range output g Hm) as [Hx Hx70].
  destruct (max_scaled (progress j) (scaled g) Hx Hx70) as (Hd & Hc & Hr).
  unfold progress_ok in *. destruct j as [i u m s p t o e c]. cbn in *.
  destruct s; auto.
  destruct Hok as [H|[H|H]]; auto.
Qed.

Lemma job_change_ok (ev : ProcEvent) (j j' : Job) :
  progress_ok j -> job_change ev j j' -> progress_ok j'.
Proof.
  intros Hok Hch. destruct Hch as [ev j|output j Hd|now file j|code now e j|j].
  - exact Hok.
  - apply parse_progress_ok, Hok.
  - reflexivity.
  - unfold progress_ok in *. destruct j as [i u m s p t o er c]. cbn in *.
    destruct s; auto. destruct Hok.
  - unfold progress_ok in *. destruct j as [i u m s p t o er c]. cbn in *.
    destruct s; auto. destruct Hok.
Qed.

(** Every state a conversion goes through keeps [progress_ok]. *)
Lemma conv_run_ok (evs : list ProcEvent) (cv : Conversion) (srv : Server)
    (job : Job) :
  heap srv !! cv_job cv = Some job -> progress_ok job ->
  exists job',
    conv_job (conv_run evs (cv, srv)) = Some job' /\ progress_ok job'.
Proof.
  revert cv srv job. induction evs as [|ev evs IH]; intros cv srv job Hjob Hok.
  - exists job. split; assumption.
  - cbn [conv_run foldl].
    destruct (conv_step_change ev cv srv job Hjob) as (_ & job1 & H1 & Hch).
    destruct (conv_step ev (cv, srv)) as [cv1 srv1] eqn:Hstep.
    apply (IH cv1 srv1 job1 H1). eapply job_change_ok; eassumption.
Qed.

Section Start.

Variable tempDir : string.
Variable ToString : json -> string.

(** Right after [performConversion] the job is downloading at 10. *)
Lemma performConversion_job (jobId url format : string)
    (quality : option string) (now : Z) (srv0 : Server) (cv : Conversion)
    (srv : Server) :
  performConversion tempDir ToString jobId url format quality now srv0
  = Some (cv, srv) ->
  exists job,
    heap srv !! cv_job cv = Some job
    /\ status job = DOWNLOADING /\ progress job = num 10
    /\ jobs srv !! jobId = Some (cv_job cv).
Proof.
  unfold performConversion.
  destruct (jobs srv0 !! jobId) as [l|] eqn:Hl; [|discriminate].
  destruct (heap srv0 !! l) as [job|] eqn:Hj; [|discriminate].
  intros [= <- <-]. cbn [cv_job spawn heap jobs].
  rewrite conv_job_update, Hj. eexists. split; [reflexivity|].
  repeat split. apply jobs_set_lookup.
Qed.

Lemma performConversion_ok (jobId url format : string)
    (quality : option string) (now : Z) (srv0 : Server) (cv : Conversion)
    (srv : Server) :
  performConversion tempDir ToString jobId url format quality now srv0
  = Some (cv, srv) ->
  exists job, heap srv !! cv_job cv = Some job /\ progress_ok job.
Proof.
  intros H. destruct (performConversion_job _ _ _ _ _ _ _ _ H)
    as (job & Hj & Hs & Hp & _).
  exists job. split; [exact Hj|]. unfold progress_ok. rewrite Hs, Hp.
  split; reflexivity.
Qed.

End Start.

(** ** Consequences of [progress_ok] *)

Lemma progress_ok_range (j : Job) :
  progress_ok j -> between 0 100 (progress j).
Proof.
  assert (Hr : forall p, between 10 70 p -> between 0 100 p).
  { intros p [Hlo Hhi]. split.
    - apply nonneg_ge_0, ge_10_nonneg, Hlo.
    - eapply leb_trans; [exact Hhi|reflexivity]. }
  unfold progress_ok. destruct (status j).
  - intros [].
  - apply Hr.
  - intros ->. split; reflexivity.
  - intros ->. split; reflexivity.
  - intros [H|[->| ->]]; [apply Hr, H|split; reflexivity|split; reflexivity].
Qed.

Lemma progress_ok_nonneg (j : Job) : progress_ok j -> nonneg (progress j).
Proof.
  unfold progress_ok. destruct (status j).
  - intros [].
  - intros [H _]. apply ge_10_nonneg, H.
  - intros ->. exact I.
  - intros ->. exact I.
  - intros [[H _]|[->| ->]]; [apply ge_10_nonneg, H|exact I|exact I].
Qed.

(** While the job is not in a terminal status its progress is at
    most 80. *)
Lemma progress_ok_active (j : Job) :
  progress_ok j -> terminal (status j) = false ->
  leb (progress j) (num 80) = true.
Proof.
  unfold progress_ok. destruct (status j); cbn; try discriminate.
  - intros [].
  - intros [_ H] _. eapply leb_trans; [exact H|reflexivity].
  - intros -> _. reflexivity.
Qed.

End ConversionSteps.
(* ===================================================================== *)
(** * The timeout of a conversion *)
(* ===================================================================== *)

(** C4.  The timer of a conversion is set to 600 seconds.  When it
    fires, [kill] is called on the process, the job's status becomes
    [ERROR] with the diagnostic ['Conversion timeout'], its progress is
    the value it had before, the job is put (back) in the registry, and
    a promise that was still pending is rejected with the same
    diagnostic. *)
Theorem timeout_marks_error (cv : Conversion) (srv : Server) (job : Job) :
  heap srv !! cv_job cv = Some job ->
  conversion_timer = 600000%Z
  /\ cv_killed (on_timeout (cv, srv)).1 = true
  /\ (cv_promise cv = None ->
      cv_promise (on_timeout (cv, srv)).1 = Some (inr "Conversion timeout"))
  /\ jobs (on_timeout (cv, srv)).2 !! cv_jobId cv = Some (cv_job cv)
  /\ exists job',
      conv_job (on_timeout (cv, srv)) = Some job'
      /\ status job' = ERROR
      /\ error job' = Some "Conversion timeout"
      /\ progress job' = progress job.
Proof.
  intros Hjob. unfold on_timeout, conv_job. cbn [fst snd].
  split; [reflexivity|]. split; [reflexivity|].
  split; [intros Hp; cbn; rewrite Hp; reflexivity|].
  split; [apply jobs_set_lookup|].
  rewrite conv_job_update, Hjob. cbn.
  eexists. split; [reflexivity|]. repeat split.
Qed.

Lemma timeout_marks_error_witness :
  heap demo_started !! cv_job demo_conversion
  = Some (set_progress (num 10) (set_status DOWNLOADING demo_job))
  /\ exists job',
      conv_job (on_timeout (demo_conversion, demo_started)) = Some job'
      /\ status job' = ERROR /\ progress job' = num 10.
Proof.
  assert (H : heap demo_started !! cv_job demo_conversion
              = Some (set_progress (num 10) (set_status DOWNLOADING demo_job)))
    by reflexivity.
  split; [exact H|].
  destruct (timeout_marks_error demo_conversion demo_started _ H)
    as (_ & _ & _ & _ & job' & Hj & Hs & _ & Hp).
  exists job'. repeat split; assumption.
Defined.
(* ===================================================================== *)
(** * Progress of a conversion *)
(* ===================================================================== *)

Section Progress.

Local Open Scope string_scope.

Lemma job_change_monotone (ev : ProcEvent) (j j' : Job) :
  progress_ok j -> job_change ev j j' -> terminal (status j) = false ->
  leb (progress j) (progress j') = true.
Proof.
  intros Hok Hch Hact.
  pose proof (progress_ok_nonneg j Hok) as Hnn.
  assert (Hrefl : leb (progress j) (progress j) = true)
    by (apply leb_refl, nonneg_not_nan, Hnn).
  destruct Hch as [ev j|output j Hd|now file j|code now e j|j];
    try exact Hrefl.
  - unfold parse_progress.
    destruct (Str.includes output "100%").
    { apply progress_ok_active; assumption. }
    destruct (Str.includes output "%"); [|exact Hrefl].
    destruct (Str.match_percent output) as [g|] eqn:Hm; [|exact Hrefl].
    destruct (scaled_range output g Hm) as [Hx _].
    apply Math_max_ge_l; assumption.
  - apply progress_ok_range, Hok.
Qed.

Lemma job_change_error (ev : ProcEvent) (j j' : Job) :
  job_change ev j j' -> status j' = ERROR -> status j <> ERROR ->
  progress j' = progress j.
Proof.
  intros Hch He Hne.
  destruct Hch as [ev j|output j Hd|now file j|code now e j|j];
    try reflexivity.
  - exfalso. revert He. unfold parse_progress.
    destruct (Str.includes output "100%"); [discriminate|].
    destruct (Str.includes output "%"); [|exact Hne].
    destruct (Str.match_percent output); exact Hne.
  - discriminate.
Qed.

(** Progress crosses 70 only through the completion marker. *)
Lemma job_change_above_70 (ev : ProcEvent) (j j' : Job) :
  progress_ok j -> job_change ev j j' -> is_close ev = false ->
  leb (progress j) (num 70) = true -> leb (progress j') (num 70) = false ->
  (exists output, ev = StderrData output
                  /\ Str.includes output "[download]" = true
                  /\ Str.includes output "100%" = true)
  /\ status j' = CONVERTING /\ progress j' = num 80.
Proof.
  intros Hok Hch Hnc Hlo Hhi.
  destruct Hch as [ev j|output j Hd|now file j|code now e j|j];
    [congruence| |discriminate Hnc|discriminate Hnc|
     unfold set_error, set_status in Hhi; cbn [progress] in Hhi; congruence].
  revert Hhi. unfold parse_progress.
  destruct (Str.includes output "100%") eqn:H100.
  { intros _. split; [eauto|]. split; reflexivity. }
  destruct (Str.includes output "%"); [|congruence].
  destruct (Str.match_percent output) as [g|] eqn:Hm; [|congruence].
  destruct (scaled_range output g Hm) as [Hx Hx70].
  cbn [progress set_progress].
  destruct (Math_max_cases (progress j) (scaled g)
              (progress_ok_nonneg j Hok) Hx) as [[-> _]|[-> _]]; congruence.
Qed.

Lemma progress_ok_bands (j : Job) :
  progress_ok j ->
  (status j = DOWNLOADING -> leb (progress j) (num 70) = true)
  /\ ~ (ltb (num 80) (progress j) = true /\ ltb (progress j) (num 100) = true).
Proof.
  intros Hok. split.
  - intros Hs. unfold progress_ok in Hok. rewrite Hs in Hok. apply Hok.
  - intros [H80 H100].
    assert (Hgap : between 10 70 (progress j) -> False).
    { intros [_ H70]. pose proof (ltb_leb_trans _ _ _ H80 H70) as Habs.
      vm_compute in Habs. discriminate. }
    unfold progress_ok in Hok. destruct (status j).
    + exact Hok.
    + exact (Hgap Hok).
    + rewrite Hok in H80. vm_compute in H80. discriminate.
    + rewrite Hok in H100. vm_compute in H100. discriminate.
    + destruct Hok as [H|[H|H]]; [exact (Hgap H)| |].
      * rewrite H in H80. vm_compute in H80. discriminate.
      * rewrite H in H100. vm_compute in H100. discriminate.
Qed.

End Progress.
(* ===================================================================== *)
(** * The progress parser on one chunk *)
(* ===================================================================== *)

Section Parser.

Local Open Scope string_scope.

(** C3 (as stated, refuted).  The chunk [[download] 45.2%] does not
    yield the scaled value 31: the code computes [parseInt("45.2") * 0.7
    = 45 * 0.7 = 31.499999999999996], and from a previous progress of
    10 the progress does not become [max(10, 31)]. *)
Lemma scaled_45_2_counterexample :
  exists job',
    conv_job (on_stderr_data "[download] 45.2%" (demo_conversion, demo_started))
    = Some job'
    /\ Str.match_percent "[download] 45.2%" = Some "45.2"
    /\ scaled "45.2" <> num 31
    /\ progress job' <> Math_max (num 10) (num 31).
Proof.
  eexists. split; [vm_compute; reflexivity|].
  split; [reflexivity|]. split; vm_compute; discriminate.
Qed.

(** C3 (amended).  For every chunk delivered by [stderr]: if it
    contains [[download]] and [100%] the progress becomes 80 (and the
    status [CONVERTING]); if it contains [[download]], not [100%], and
    a percentage [p], the progress becomes
    [max(progress, min(70, parseInt(p) * 0.7))], where [parseInt] drops
    the fraction of [p] and the product is the binary64 one, not
    rounded to an integer; in every other case the job is unchanged.
    In particular [[download] 45.2%] gives the scaled value
    31.499999999999996, and [random log line] changes nothing. *)
Theorem stderr_chunk_progress (output : string) (cv : Conversion)
    (srv : Server) (job : Job) :
  heap srv !! cv_job cv = Some job ->
  exists job',
    conv_job (on_stderr_data output (cv, srv)) = Some job'
    /\ (Str.includes output "[download]" = true ->
        Str.includes output "100%" = true ->
        progress job' = num 80 /\ status job' = CONVERTING)
    /\ (forall p,
          Str.includes output "[download]" = true ->
          Str.includes output "100%" = false ->
          Str.match_percent output = Some p ->
          progress job'
          = Math_max (progress job)
                     (Math_min (num 70) (mul (parseInt p) lit_0_7))
          /\ status job' = status job)
    /\ (Str.includes output "[download]" = false
        \/ (Str.includes output "100%" = false
            /\ Str.match_percent output = None) ->
        job' = job)
    /\ Str.match_percent "[download] 45.2%" = Some "45.2"
    /\ Math_min (num 70) (mul (parseInt "45.2") lit_0_7)
       = S754_finite false 8866461766385663 (-48)
    /\ Str.includes "random log line" "[download]" = false.
Proof.
  intros Hjob. unfold conv_job, on_stderr_data.
  destruct (Str.includes output "[download]") eqn:Hd; cbn [fst snd cv_job].
  - rewrite conv_job_update, Hjob. eexists. split; [reflexivity|].
    unfold parse_progress.
    destruct (Str.includes output "100%") eqn:H100.
    + split; [intros _ _; split; reflexivity|].
      split; [intros p _ Hf; discriminate Hf|].
      split; [intros [Hf|[Hf _]]; discriminate Hf|].
      repeat split.
    + split; [intros _ Hf; discriminate Hf|].
      destruct (Str.match_percent output) as [g|] eqn:Hm.
      * rewrite (match_percent_includes output g Hm).
        split; [intros p _ _ [= <-]; split; reflexivity|].
        split; [intros [Hf|[_ Hf]]; discriminate Hf|].
        repeat split.
      * split; [intros p _ _ Hf; discriminate Hf|].
        split; [|repeat split].
        intros _. destruct (Str.includes output "%"); reflexivity.
  - exists job. split; [exact Hjob|].
    split; [intros Hf; discriminate Hf|].
    split; [intros p Hf; discriminate Hf|].
    split; [reflexivity|]. repeat split.
Qed.

Lemma stderr_chunk_progress_witness :
  exists job',
    conv_job (on_stderr_data "random log line" (demo_conversion, demo_started))
    = Some job'
    /\ job' = set_progress (num 10) (set_status DOWNLOADING demo_job).
Proof.
  assert (H : heap demo_started !! cv_job demo_conversion
              = Some (set_progress (num 10) (set_status DOWNLOADING demo_job)))
    by reflexivity.
  destruct (stderr_chunk_progress "random log line" demo_conversion
              demo_started _ H) as (job' & Hjob' & _ & _ & Hsame & _).
  exists job'. split; [exact Hjob'|]. apply Hsame. left. reflexivity.
Defined.

End Parser.

(* ===================================================================== *)
(** * Terminal states are not final in the code *)
(* ===================================================================== *)

Section Terminal.

Local Open Scope string_scope.

(** C1 (the code departs from it).  The timer of a conversion is never
    cleared.  In the sample conversion the process exits with code 0
    and the file is found, so the job is [READY] with no error; when
    the timer fires afterwards the same job becomes [ERROR] with
    ['Conversion timeout'].  Conversely, when the timer fires first and
    the killed process then closes with a [null] code, the error set by
    the timer is replaced by that of the close handler. *)
Theorem terminal_state_overwritten :
  let finished :=
    conv_run [StderrData "[download] 100% of 3.00MiB in 00:02";
              FileWritten "/app/temp/Big_Buck_Bunny_2000.mp3";
              Close (Some 0%Z) 5000]
             (demo_conversion, demo_started) in
  let expired := conv_run [TimerFired] (demo_conversion, demo_started) in
  (status <$> conv_job finished = Some READY
   /\ error <$> conv_job finished = Some None
   /\ status <$> conv_job (conv_step TimerFired finished) = Some ERROR
   /\ error <$> conv_job (conv_step TimerFired finished)
      = Some (Some "Conversion timeout"))
  /\ (status <$> conv_job expired = Some ERROR
      /\ error <$> conv_job expired = Some (Some "Conversion timeout")
      /\ error <$> conv_job (conv_step (Close None 602000) expired)
         = Some (Some "Unknown conversion error")).
Proof. vm_compute. repeat split. Qed.

End Terminal.
(* ===================================================================== *)
(** * The close handler: locating the output file *)
(* ===================================================================== *)

Section CloseHandler.

Local Open Scope string_scope.

Lemma find_nothing {A : Type} (p : A -> bool) (l : list A) :
  (forall x, x ∈ l -> p x = false) -> find p l = None.
Proof.
  induction l as [|a l IH]; intros H; [reflexivity|].
  cbn. rewrite (H a) by (left). apply IH. intros x Hx. apply H. right. exact Hx.
Qed.

Lemma find_first {A : Type} (p : A -> bool) (l : list A) (i : nat) (x : A) :
  l !! i = Some x -> p x = true ->
  (forall k y, (k < i)%nat -> l !! k = Some y -> p y = false) ->
  find p l = Some x.
Proof.
  revert i. induction l as [|a l IH]; intros i Hi Hx Hbefore; [discriminate|].
  destruct i as [|i].
  - injection Hi as ->. cbn. rewrite Hx. reflexivity.
  - cbn. rewrite (Hbefore O a) by (reflexivity || lia).
    apply (IH i); [exact Hi|exact Hx|].
    intros k y Hk Hy. apply (Hbefore (S k) y); [lia|exact Hy].
Qed.

Lemma existsSync_nonempty (srv : Server) (f : string) :
  existsSync srv f = true -> exists c r, f = String c r.
Proof.
  unfold existsSync. destruct f as [|c r]; [discriminate|eauto].
Qed.

(** C5.  When the process closes with code 0 the handler looks for the
    output among five candidates in order: the requested path, then
    the path with [.format] replaced by [.mp3], [.mp4], [.webm] and
    [.m4a] (which differ by the extension only, provided [.format]
    first occurs in the path as its extension).  The first candidate
    that exists makes the job [READY] with that path as [outputPath],
    progress 100 and a completion time; if none exists the job becomes
    [ERROR] with ['Output file not generated']. *)
Theorem close_resolves_artifact (now : Z) (cv : Conversion) (srv : Server)
    (job : Job) :
  heap srv !! cv_job cv = Some job ->
  (forall base,
      cv_outputPath cv = base +:+ ("." +:+ cv_format cv) ->
      Str.indexOf (cv_outputPath cv) ("." +:+ cv_format cv)
      = Some (String.length base) ->
      possibleFiles (cv_outputPath cv) (cv_format cv)
      = [base +:+ ("." +:+ cv_format cv); base +:+ ".mp3"; base +:+ ".mp4";
         base +:+ ".webm"; base +:+ ".m4a"])
  /\ exists job',
      conv_job (on_close (Some 0%Z) now (cv, srv)) = Some job'
      /\ (forall i f,
            possibleFiles (cv_outputPath cv) (cv_format cv) !! i = Some f ->
            existsSync srv f = true ->
            (forall k g, (k < i)%nat ->
               possibleFiles (cv_outputPath cv) (cv_format cv) !! k = Some g ->
               existsSync srv g = false) ->
            status job' = READY /\ outputPath job' = Some f
            /\ progress job' = num 100 /\ completedAt job' = Some now)
      /\ ((forall f, f ∈ possibleFiles (cv_outputPath cv) (cv_format cv) ->
                     existsSync srv f = false) ->
          status job' = ERROR /\ error job' = Some "Output file not generated"
          /\ progress job' = progress job /\ outputPath job' = outputPath job).
Proof.
  intros Hjob. split.
  { intros base Hpath Hidx. unfold possibleFiles. rewrite Hpath in *.
    rewrite !(replace_suffix base _ _ Hidx). reflexivity. }
  unfold conv_job, on_close.
  destruct (find (existsSync srv) (possibleFiles (cv_outputPath cv) (cv_format cv)))
    as [file|] eqn:Hfind.
  - destruct (existsSync_nonempty srv file) as (c & r & ->).
    { apply (find_some _ _ Hfind). }
    cbn [fst snd with_promise cv_job]. rewrite conv_job_update, Hjob.
    eexists. split; [reflexivity|]. split.
    + intros i f Hi Hf Hbefore.
      rewrite (find_first _ _ i f Hi Hf Hbefore) in Hfind.
      injection Hfind as ->. repeat split.
    + intros Hnone. rewrite (find_nothing _ _ Hnone) in Hfind. discriminate.
  - cbn [fst snd with_promise cv_job]. rewrite conv_job_update, Hjob.
    eexists. split; [reflexivity|]. split.
    + intros i f Hi Hf Hbefore.
      rewrite (find_first _ _ i f Hi Hf Hbefore) in Hfind. discriminate.
    + intros _. repeat split.
Qed.

(** The sample conversion asked for mp3; only the [.m4a] file is on
    disk, and the job becomes ready with it. *)
Lemma close_resolves_artifact_witness :
  exists job',
    conv_job (on_close (Some 0%Z) 5000
                (demo_conversion,
                 fs_write "/app/temp/Big_Buck_Bunny_2000.m4a" demo_started))
    = Some job'
    /\ status job' = READY
    /\ outputPath job' = Some "/app/temp/Big_Buck_Bunny_2000.m4a".
Proof.
  assert (H : heap (fs_write "/app/temp/Big_Buck_Bunny_2000.m4a" demo_started)
                !! cv_job demo_conversion
              = Some (set_progress (num 10) (set_status DOWNLOADING demo_job)))
    by reflexivity.
  destruct (close_resolves_artifact 5000 demo_conversion
              (fs_write "/app/temp/Big_Buck_Bunny_2000.m4a" demo_started) _ H)
    as (Hcands & job' & Hjob' & Hready & _).
  exists job'. split; [exact Hjob'|].
  assert (Hlist :
    possibleFiles (cv_outputPath demo_conversion) (cv_format demo_conversion)
    = ["/app/temp/Big_Buck_Bunny_2000" +:+ ("." +:+ "mp3");
       "/app/temp/Big_Buck_Bunny_2000" +:+ ".mp3";
       "/app/temp/Big_Buck_Bunny_2000" +:+ ".mp4";
       "/app/temp/Big_Buck_Bunny_2000" +:+ ".webm";
       "/app/temp/Big_Buck_Bunny_2000" +:+ ".m4a"]).
  { apply (Hcands "/app/temp/Big_Buck_Bunny_2000"); reflexivity. }
  destruct (Hready 4%nat "/app/temp/Big_Buck_Bunny_2000.m4a") as (Hs & Ho & _).
  - rewrite Hlist. reflexivity.
  - vm_compute. reflexivity.
  - intros k g Hk. rewrite Hlist.
    destruct k as [|[|[|[|k]]]]; [| | | |lia];
      intros [= <-]; vm_compute; reflexivity.
  - split; assumption.
Defined.

End CloseHandler.
(* ===================================================================== *)
(** * The download endpoint *)
(* ===================================================================== *)

Section Download.

Local Open Scope string_scope.

(** C6.  The download endpoint streams a file exactly when the job
    exists, its status is [READY] and the file named by its
    [outputPath] exists; otherwise it answers 404 (file not ready, or
    file not found) and the state is unchanged.  When the stream ends a
    timer of 5 seconds is set; its callback removes the file and the
    entry of the job, touches nothing else, and works the same when the
    file is already gone. *)
Theorem download_contract (jobId : string) (srv : Server) :
  (forall filePath,
      (api_download jobId srv).1 = FileStream filePath <->
      exists job,
        jobs_get jobId srv = Some job /\ status job = READY
        /\ outputPath job = Some filePath /\ existsSync srv filePath = true)
  /\ ((forall filePath, (api_download jobId srv).1 <> FileStream filePath) ->
      (api_download jobId srv).1 = ErrorJson 404 "File not ready for download"
      \/ (api_download jobId srv).1 = ErrorJson 404 "File not found")
  /\ (api_download jobId srv).2 = srv
  /\ forall filePath,
      (on_stream_end filePath jobId).1 = 5000%Z
      /\ jobs_get jobId ((on_stream_end filePath jobId).2 srv) = None
      /\ existsSync ((on_stream_end filePath jobId).2 srv) filePath = false
      /\ (forall other, other <> jobId ->
            jobs ((on_stream_end filePath jobId).2 srv) !! other
            = jobs srv !! other)
      /\ (forall p, p <> filePath ->
            (p ∈ disk ((on_stream_end filePath jobId).2 srv) <-> p ∈ disk srv))
      /\ (filePath ∉ disk srv ->
          disk ((on_stream_end filePath jobId).2 srv) = disk srv)
      /\ heap ((on_stream_end filePath jobId).2 srv) = heap srv.
Proof.
  split; [|split; [|split; [reflexivity|]]].
  - intros filePath. unfold api_download. cbn [fst]. split.
    + destruct (jobs_get jobId srv) as [job|]; [|discriminate].
      destruct (outputPath job) as [[|c f]|] eqn:Ho; try discriminate.
      destruct (decide (status job = READY)) as [Hs|Hs]; [|discriminate].
      destruct (existsSync srv (String c f)) eqn:He; [|discriminate].
      intros [= <-]. exists job. repeat split; assumption.
    + intros (job & -> & Hs & Ho & He). rewrite Ho.
      destruct (existsSync_nonempty srv filePath He) as (c & r & ->).
      destruct (decide (status job = READY)) as [_|Hn]; [|contradiction].
      rewrite He. reflexivity.
  - unfold api_download. cbn [fst]. intros Hno.
    destruct (jobs_get jobId srv) as [job|]; [|left; reflexivity].
    destruct (outputPath job) as [[|c f]|]; try (left; reflexivity).
    destruct (decide (status job = READY)); [|left; reflexivity].
    destruct (existsSync srv (String c f)); [|right; reflexivity].
    exfalso. exact (Hno _ eq_refl).
  - intros filePath. unfold on_stream_end, download_cleanup. cbn [fst snd].
    split; [reflexivity|]. split.
    { unfold jobs_get. cbn. rewrite lookup_delete_eq. reflexivity. }
    split.
    { unfold existsSync. cbn. apply andb_false_iff. right.
      apply bool_decide_eq_false.
      rewrite elem_of_difference, elem_of_singleton. tauto. }
    split.
    { intros other Hne. cbn. apply lookup_delete_ne. congruence. }
    split.
    { intros p Hne. cbn.
      rewrite elem_of_difference, elem_of_singleton. tauto. }
    split.
    { intros Hnot. cbn. apply set_eq. intros p.
      rewrite elem_of_difference, elem_of_singleton.
      split; [tauto|]. intros Hp. split; [exact Hp|congruence]. }
    reflexivity.
Qed.

End Download.
(* ===================================================================== *)
(** * The cleanup endpoint *)
(* ===================================================================== *)

Section Sweep.

Local Open Scope string_scope.

Variable cutoff : Z.
Variable srv : Server.

Lemma existsSync_remove (s : Server) (q p : string) :
  existsSync (fs_remove q s) p = true <-> existsSync s p = true /\ p <> q.
Proof.
  unfold existsSync. cbn. rewrite !andb_true_iff, !bool_decide_eq_true.
  rewrite elem_of_difference, elem_of_singleton. tauto.
Qed.

(** An entry that is not expired adds nothing to what was swept. *)
Lemma swept_skip (acc : Server * nat) (m : gmap string loc) (i : string)
    (l : loc) :
  m !! i = None -> is_expired cutoff srv l = false ->
  swept cutoff srv acc m -> swept cutoff srv acc (<[i := l]> m).
Proof.
  intros Hfresh Hyoung (Hheap & Hsp & Hjobs & Hdisk).
  split; [exact Hheap|]. split; [exact Hsp|]. split.
  - intros k. rewrite Hjobs. destruct (decide (k = i)) as [->|Hne].
    + rewrite lookup_insert_eq, Hfresh, Hyoung. reflexivity.
    + rewrite lookup_insert_ne by congruence. reflexivity.
  - intros p. rewrite Hdisk. split; intros [Hp Hno]; (split; [exact Hp|]).
    + intros (k & l' & job' & Hk & Hl' & Hexp & Hout). apply Hno.
      destruct (decide (k = i)) as [->|Hne].
      * rewrite lookup_insert_eq in Hk. injection Hk as <-.
        unfold is_expired in Hyoung. rewrite Hl' in Hyoung.
        apply Z.ltb_ge in Hyoung. unfold expired in Hexp. lia.
      * rewrite lookup_insert_ne in Hk by congruence. eauto 10.
    + intros (k & l' & job' & Hk & Hrest). apply Hno.
      exists k, l', job'. rewrite lookup_insert_ne; [tauto|].
      intros ->. congruence.
Qed.

Lemma swept_all (m : gmap string loc) :
  swept cutoff srv (map_fold (cleanup_entry cutoff) (srv, O) m) m.
Proof.
  apply (map_fold_weak_ind (swept cutoff srv)).
  - split; [reflexivity|]. split; [reflexivity|]. split.
    + intros i. rewrite lookup_empty. reflexivity.
    + intros p. cbn [fst]. split; [|tauto].
      intros Hp. split; [exact Hp|].
      intros (i & l & job & Hi & _). rewrite lookup_empty in Hi. discriminate.
  - intros i l m' [s n] Hfresh Hswept.
    pose proof Hswept as (Hheap & Hsp & Hjobs & Hdisk). cbn [fst] in *.
    unfold cleanup_entry. rewrite Hheap.
    destruct (heap srv !! l) as [job|] eqn:Hjob.
    2:{ apply swept_skip; [exact Hfresh| |exact Hswept].
        unfold is_expired. rewrite Hjob. reflexivity. }
    destruct (createdAt job <? cutoff)%Z eqn:Hold.
    2:{ apply swept_skip; [exact Hfresh| |exact Hswept].
        unfold is_expired. rewrite Hjob. exact Hold. }
    set (s1 := match outputPath job with
               | Some filePath =>
                   if existsSync s filePath then fs_remove filePath s else s
               | None => s
               end).
    assert (Hs1 : heap s1 = heap s /\ spawned s1 = spawned s /\ jobs s1 = jobs s
                  /\ forall p, existsSync s1 p = true <->
                               existsSync s p = true /\ outputPath job <> Some p).
    { unfold s1. destruct (outputPath job) as [q|].
      - destruct (existsSync s q) eqn:Hq.
        + split; [reflexivity|]. split; [reflexivity|]. split; [reflexivity|].
          intros p. rewrite existsSync_remove. split.
          * intros [Hp Hne]. split; [exact Hp|]. congruence.
          * intros [Hp Hne]. split; [exact Hp|]. congruence.
        + split; [reflexivity|]. split; [reflexivity|]. split; [reflexivity|].
          intros p. split; [|tauto].
          intros Hp. split; [exact Hp|]. intros [= ->]. congruence.
      - split; [reflexivity|]. split; [reflexivity|]. split; [reflexivity|].
        intros p. split; [|tauto]. intros Hp. split; [exact Hp|]. discriminate. }
    destruct Hs1 as (Hh1 & Hsp1 & Hj1 & Hd1).
    split; [cbn; congruence|]. split; [cbn; congruence|]. split.
    + intros k. cbn [fst jobs_delete jobs]. rewrite Hj1.
      destruct (decide (k = i)) as [->|Hne].
      * rewrite lookup_delete_eq, lookup_insert_eq.
        unfold is_expired. rewrite Hjob, Hold. reflexivity.
      * rewrite lookup_delete_ne by congruence.
        rewrite lookup_insert_ne by congruence. apply Hjobs.
    + intros p. cbn [fst].
      change (existsSync (jobs_delete i s1) p) with (existsSync s1 p).
      rewrite Hd1, Hdisk. apply Z.ltb_lt in Hold. split.
      * intros [[Hp Hno] Hne]. split; [exact Hp|].
        intros (k & l' & job' & Hk & Hl' & Hexp & Hout).
        destruct (decide (k = i)) as [->|Hki].
        -- rewrite lookup_insert_eq in Hk. injection Hk as <-.
           rewrite Hjob in Hl'. injection Hl' as <-. contradiction.
        -- rewrite lookup_insert_ne in Hk by congruence.
           apply Hno. eauto 10.
      * intros [Hp Hno]. split; [split; [exact Hp|]|].
        -- intros (k & l' & job' & Hk & Hrest). apply Hno.
           exists k, l', job'. rewrite lookup_insert_ne; [tauto|].
           intros ->. congruence.
        -- intros Hout. apply Hno. exists i, l, job.
           rewrite lookup_insert_eq. auto.
Qed.

(** When no entry visited is expired the loop changes nothing. *)
Lemma sweep_nothing (acc : Server * nat) (m : gmap string loc) :
  (forall i l, m !! i = Some l -> is_expired cutoff acc.1 l = false) ->
  map_fold (cleanup_entry cutoff) acc m = acc.
Proof.
  apply (map_fold_weak_ind
           (fun r m => (forall i l, m !! i = Some l ->
                                    is_expired cutoff acc.1 l = false) ->
                       r = acc)).
  - reflexivity.
  - intros i l m' r Hfresh IH Hall.
    rewrite IH.
    + destruct acc as [s n]. unfold cleanup_entry.
      specialize (Hall i l (lookup_insert_eq _ _ _)).
      unfold is_expired in Hall. cbn [fst] in Hall.
      destruct (heap s !! l); [|reflexivity]. rewrite Hall. reflexivity.
    + intros k l' Hk. apply (Hall k l').
      rewrite lookup_insert_ne; [exact Hk|]. intros ->. congruence.
Qed.

End Sweep.

Lemma registry_lookup (srv : Server) (i : string) :
  registry srv !! i = jobs_get i srv.
Proof. unfold registry, jobs_get. rewrite lookup_omap. reflexivity. Qed.

(** C7.  For every state and every maximal age, the sweep at time [now]
    removes from the registry exactly the entries created before
    [now - maxAge], leaving the others as they were; the files of the
    removed entries no longer exist, and no other file is removed;
    running the same sweep again removes nothing; an entry whose file
    is absent is removed all the same.  The cleanup endpoint is this
    sweep with a maximal age of one hour. *)
Theorem sweep_removes_expired (maxAge now : Z) (srv : Server) :
  registry (sweep (now - maxAge) srv).1
  = filter (fun kv => ~ expired (now - maxAge) kv.2) (registry srv)
  /\ heap (sweep (now - maxAge) srv).1 = heap srv
  /\ (forall p,
        existsSync (sweep (now - maxAge) srv).1 p = true <->
        existsSync srv p = true
        /\ ~ exists i job,
              registry srv !! i = Some job
              /\ expired (now - maxAge) job /\ outputPath job = Some p)
  /\ sweep (now - maxAge) (sweep (now - maxAge) srv).1
     = ((sweep (now - maxAge) srv).1, O)
  /\ api_cleanup now srv
     = (Cleaned (sweep (now - 3600000) srv).2, (sweep (now - 3600000) srv).1).
Proof.
  set (cutoff := (now - maxAge)%Z).
  pose proof (swept_all cutoff srv (jobs srv)) as Hswept.
  fold (sweep cutoff srv) in Hswept.
  destruct Hswept as (Hheap & Hsp & Hjobs & Hdisk).
  assert (Hreg : forall i,
    registry (sweep cutoff srv).1 !! i
    = match registry srv !! i with
      | Some job => if decide (expired cutoff job) then None else Some job
      | None => None
      end).
  { intros i. rewrite !registry_lookup. unfold jobs_get.
    rewrite Hjobs, Hheap. unfold is_expired.
    destruct (jobs srv !! i) as [l|] eqn:Hl; cbn; [|reflexivity].
    destruct (heap srv !! l) as [job|] eqn:Hjob; cbn.
    - unfold expired. destruct (createdAt job <? cutoff)%Z eqn:E.
      + apply Z.ltb_lt in E. rewrite decide_True by exact E. reflexivity.
      + apply Z.ltb_ge in E. rewrite decide_False by lia.
        cbn. exact Hjob.
    - exact Hjob. }
  split; [|split; [exact Hheap|split; [|split]]].
  - apply map_eq. intros i. rewrite Hreg, map_lookup_filter.
    destruct (registry srv !! i) as [job|]; cbn; [|reflexivity].
    destruct (decide (expired cutoff job)) as [He|He].
    + rewrite option_guard_False by (cbn; tauto). reflexivity.
    + rewrite option_guard_True by (cbn; tauto). reflexivity.
  - intros p. rewrite Hdisk. split; intros [Hp Hno]; (split; [exact Hp|]).
    + intros (i & job & Hi & He & Ho). apply Hno.
      rewrite registry_lookup in Hi. unfold jobs_get in Hi.
      destruct (jobs srv !! i) as [l|] eqn:Hl; [|discriminate].
      exists i, l, job. auto.
    + intros (i & l & job & Hl & Hjob & He & Ho). apply Hno.
      exists i, job. rewrite registry_lookup. unfold jobs_get.
      rewrite Hl. cbn. auto.
  - unfold sweep at 1. apply sweep_nothing. cbn [fst].
    intros i l Hl. unfold is_expired. rewrite Hheap.
    rewrite Hjobs in Hl. unfold is_expired in Hl.
    destruct (jobs srv !! i) as [l0|]; [|discriminate].
    destruct (heap srv !! l0) as [job0|] eqn:H0.
    + destruct (createdAt job0 <? cutoff)%Z eqn:E; [discriminate|].
      assert (l0 = l) as -> by congruence. rewrite H0. exact E.
    + assert (l0 = l) as -> by congruence. rewrite H0. reflexivity.
  - unfold api_cleanup, CLEANUP_MAX_AGE.
    change (60 * 60 * 1000)%Z with 3600000%Z.
    destruct (sweep (now - 3600000) srv). reflexivity.
Qed.

(** The sample job, created at time 1000, is swept two hours later
    together with its file, and a second sweep finds nothing. *)
Example sweep_after_two_hours :
  let ready :=
    (conv_run [FileWritten "/app/temp/Big_Buck_Bunny_2000.mp3";
               Close (Some 0%Z) 5000] (demo_conversion, demo_started)).2 in
  existsSync ready "/app/temp/Big_Buck_Bunny_2000.mp3" = true
  /\ (api_cleanup (1000 + 2 * 3600000) ready).1 = Cleaned 1
  /\ jobs_get "job-1" (api_cleanup (1000 + 2 * 3600000) ready).2 = None
  /\ existsSync (api_cleanup (1000 + 2 * 3600000) ready).2
       "/app/temp/Big_Buck_Bunny_2000.mp3" = false
  /\ (api_cleanup (1000 + 2 * 3600000)
        (api_cleanup (1000 + 2 * 3600000) ready).2).1 = Cleaned 0.
Proof. vm_compute. repeat split. Qed.
(* ===================================================================== *)
(** * The metadata probe *)
(* ===================================================================== *)

Section ProbeFacts.

Local Open Scope string_scope.

Variable JSON_parse : string -> option json.

(** Data chunks only fill the buffers. *)
Lemma probe_run_data (pre : list ProcEvent) (p : Probe) :
  forallb is_data pre = true ->
  probe_run JSON_parse pre p
  = mkProbe (p_stdout p +:+ stdout_of pre) (p_stderr p +:+ stderr_of pre)
            (p_killed p) (p_promise p).
Proof.
  revert p. induction pre as [|ev pre IH]; intros p Hdata.
  - cbn. rewrite !str_app_nil_r. destruct p; reflexivity.
  - cbn [forallb] in Hdata. apply andb_true_iff in Hdata as [Hev Hpre].
    unfold probe_run in *. cbn [foldl]. rewrite (IH _ Hpre).
    destruct ev as [d|d|f|c t|]; try discriminate; cbn;
      rewrite ?str_app_assoc; destruct p; reflexivity.
Qed.

(** A settled promise stays as it is. *)
Lemma probe_run_settled (evs : list ProcEvent) (p : Probe)
    (r : Metadata + string) :
  p_promise p = Some r -> p_promise (probe_run JSON_parse evs p) = Some r.
Proof.
  revert p. induction evs as [|ev evs IH]; intros p Hp; [exact Hp|].
  unfold probe_run in *. cbn [foldl]. apply IH.
  destruct ev as [d|d|f|c t|]; cbn; rewrite ?Hp; try reflexivity; exact Hp.
Qed.

Lemma probe_run_killed (evs : list ProcEvent) (p : Probe) :
  p_killed p = true -> p_killed (probe_run JSON_parse evs p) = true.
Proof.
  revert p. induction evs as [|ev evs IH]; intros p Hp; [exact Hp|].
  unfold probe_run in *. cbn [foldl]. apply IH.
  destruct ev as [d|d|f|c t|]; cbn; try reflexivity; exact Hp.
Qed.

(** The probe after its first settling event [ev], reached after the
    data chunks [pre]. *)
Lemma probe_first_settling (pre post : list ProcEvent) (ev : ProcEvent) :
  forallb is_data pre = true ->
  p_promise (probe_run JSON_parse (pre ++ ev :: post) (mkProbe "" "" false None))
  = p_promise (probe_step JSON_parse ev
                 (mkProbe (stdout_of pre) (stderr_of pre) false None))
    \/ is_data ev = true.
Proof.
  intros Hpre. destruct (is_data ev) eqn:Hev; [right; reflexivity|left].
  unfold probe_run. rewrite foldl_app. cbn [foldl].
  fold (probe_run JSON_parse pre (mkProbe "" "" false None)).
  rewrite (probe_run_data pre _ Hpre). cbn [p_stdout p_stderr p_killed p_promise].
  change ("" +:+ stdout_of pre) with (stdout_of pre).
  change ("" +:+ stderr_of pre) with (stderr_of pre).
  fold (probe_run JSON_parse post
          (probe_step JSON_parse ev
             (mkProbe (stdout_of pre) (stderr_of pre) false None))).
  destruct (p_promise (probe_step JSON_parse ev
              (mkProbe (stdout_of pre) (stderr_of pre) false None)))
    as [r|] eqn:Hr.
  - apply probe_run_settled, Hr.
  - destruct ev as [d|d|f|c t|]; try discriminate; cbn in Hr; discriminate.
Qed.

Lemma read_metadata_None (stdout : string) :
  read_metadata JSON_parse stdout = None <->
  JSON_parse (Str.trim stdout) = None
  \/ JSON_parse (Str.trim stdout) = Some JNull.
Proof.
  unfold read_metadata.
  destruct (JSON_parse (Str.trim stdout)) as [[]|]; split;
    try (intros H; discriminate H); try (intros [H|H]; discriminate H); auto.
Qed.

End ProbeFacts.

(** C8.  The promise of [getVideoMetadata] is settled by the first
    close or timer event.  It is rejected exactly when that event is the
    timer (set to 30 seconds, and [kill] is called), a close with a code
    other than 0 (the message carries the text of [stderr]), or a close
    with code 0 whose output [JSON.parse] rejects or reads as [null].
    One process is spawned and none again, and the prepare endpoint
    answers the rejection at once with status 500. *)
Theorem metadata_fetch_failure (JSON_parse : string -> option json)
    (url : string) (pre post : list ProcEvent) (ev : ProcEvent)
    (srv : Server) :
  forallb is_data pre = true -> is_data ev = false ->
  ((exists message,
       p_promise (getVideoMetadata JSON_parse url (pre ++ ev :: post) srv).1
       = Some (inr message)) <->
   ev = TimerFired
   \/ (exists code now, ev = Close code now /\ code <> Some 0%Z)
   \/ (exists now, ev = Close (Some 0%Z) now
                   /\ (JSON_parse (Str.trim (stdout_of pre)) = None
                       \/ JSON_parse (Str.trim (stdout_of pre)) = Some JNull)))
  /\ (ev = TimerFired ->
      probe_timer = 30000%Z
      /\ p_killed (getVideoMetadata JSON_parse url (pre ++ ev :: post) srv).1
         = true
      /\ p_promise (getVideoMetadata JSON_parse url (pre ++ ev :: post) srv).1
         = Some (inr "Metadata fetch timeout"))
  /\ (forall code now, ev = Close code now -> code <> Some 0%Z ->
      p_promise (getVideoMetadata JSON_parse url (pre ++ ev :: post) srv).1
      = Some (inr ("Failed to fetch metadata: " +:+ Str.trim (stderr_of pre))))
  /\ (forall now, ev = Close (Some 0%Z) now ->
      read_metadata JSON_parse (stdout_of pre) = None ->
      p_promise (getVideoMetadata JSON_parse url (pre ++ ev :: post) srv).1
      = Some (inr "Failed to parse video metadata"))
  /\ spawned (getVideoMetadata JSON_parse url (pre ++ ev :: post) srv).2
     = (spawned srv ++ [probe_args url])%list
  /\ (forall message uuid now,
        url <> "" -> isValidYouTubeUrl url = true ->
        p_promise (getVideoMetadata JSON_parse url (pre ++ ev :: post) srv).1
        = Some (inr message) ->
        api_prepare JSON_parse (Some url) (pre ++ ev :: post) uuid now srv
        = (Some (ErrorJson 500 ("Failed to prepare conversion: " +:+ message)),
           spawn (probe_args url) srv)).
Proof.
  intros Hpre Hev.
  destruct (probe_first_settling JSON_parse pre post ev Hpre) as [Hfirst|Hd];
    [|congruence].
  unfold getVideoMetadata. cbn [fst snd]. rewrite Hfirst.
  split; [|split; [|split; [|split; [|split]]]].
  - destruct ev as [d|d|f|code now|]; try discriminate.
    + cbn [probe_step p_promise p_stdout p_stderr settle].
      destruct code as [[|c|c]|].
      * destruct (read_metadata JSON_parse (stdout_of pre)) as [m|] eqn:Hm.
        -- split; [intros [msg Hmsg]; discriminate Hmsg|].
           intros [Hf|[(c & t & [= <- <-] & Hne)|(t & _ & Hnone)]].
           ++ discriminate Hf.
           ++ congruence.
           ++ apply read_metadata_None in Hnone. congruence.
        -- split; [|eauto]. intros _. right. right. exists now.
           split; [reflexivity|]. apply read_metadata_None, Hm.
      * split; [|eauto]. intros _. right. left. exists (Some (Z.pos c)), now.
        split; [reflexivity|discriminate].
      * split; [|eauto]. intros _. right. left. exists (Some (Z.neg c)), now.
        split; [reflexivity|discriminate].
      * split; [|eauto]. intros _. right. left. exists None, now.
        split; [reflexivity|discriminate].
    + split; [auto|]. intros _. cbn. eauto.
  - intros ->. split; [reflexivity|]. split; [|reflexivity].
    unfold probe_run. rewrite foldl_app. cbn [foldl].
    apply (probe_run_killed JSON_parse). reflexivity.
  - intros code now -> Hne. cbn.
    destruct code as [[|c|c]|]; try reflexivity. congruence.
  - intros now -> Hnone. cbn. rewrite Hnone. reflexivity.
  - cbn. reflexivity.
  - intros message uuid now Hurl Hvalid Hrej. unfold api_prepare.
    destruct url as [|c u]; [congruence|]. rewrite Hvalid.
    unfold getVideoMetadata. rewrite Hfirst, Hrej. reflexivity.
Qed.

(** The probe of the sample video writes to [stderr] and exits with
    code 1. *)
Lemma metadata_fetch_failure_witness :
  p_promise (getVideoMetadata demo_parse "https://youtu.be/aqz-KE-bpKQ"
               ([StderrData "ERROR: Video unavailable "]
                ++ Close (Some 1%Z) 10 :: [TimerFired])%list
               empty_server).1
  = Some (inr "Failed to fetch metadata: ERROR: Video unavailable").
Proof.
  destruct (metadata_fetch_failure demo_parse "https://youtu.be/aqz-KE-bpKQ"
              [StderrData "ERROR: Video unavailable "] [TimerFired]
              (Close (Some 1%Z) 10) empty_server eq_refl eq_refl)
    as (_ & _ & Hexit & _).
  apply (Hexit (Some 1%Z) 10 eq_refl). discriminate.
Defined.
(* ===================================================================== *)
(** * The prepare endpoint and the metadata of registered jobs *)
(* ===================================================================== *)

Section Populated.

Local Open Scope string_scope.

Lemma or_else_truthy (a : Js.value) (d : json) :
  Js.truthy d = true -> Js.truthy (Js.or_else a d) = true.
Proof.
  intros Hd. unfold Js.or_else, Js.or.
  destruct a as [w|]; cbn; [|exact Hd].
  destruct (Js.truthy w) eqn:Hw; assumption.
Qed.

Lemma or_else_null (a : Js.value) :
  Js.or_else a JNull = JNull \/ Js.truthy (Js.or_else a JNull) = true.
Proof.
  unfold Js.or_else, Js.or.
  destruct a as [w|]; cbn; [|left; reflexivity].
  destruct (Js.truthy w) eqn:Hw; [right; exact Hw|left; reflexivity].
Qed.

Variable JSON_parse : string -> option json.

Lemma read_metadata_populated (stdout : string) (m : Metadata) :
  read_metadata JSON_parse stdout = Some m -> populated m.
Proof.
  unfold read_metadata.
  destruct (JSON_parse (Str.trim stdout)) as [v|]; [|discriminate].
  assert (Hbuild : forall w,
    populated
      {| title := Js.or_else (Js.get w "title") (JStr "Unknown Title");
         thumbnail :=
           Js.or_else
             (Js.or (Js.get w "thumbnail")
                    (Js.get_opt (Js.first (Js.get w "thumbnails")) "url"))
             JNull;
         duration := Js.or_else (Js.get w "duration") JNull;
         uploader := Js.or_else (Js.get w "uploader") (JStr "Unknown");
         view_count := Js.or_else (Js.get w "view_count") JNull |}).
  { intros w. unfold populated. cbn [title thumbnail duration uploader view_count].
    split; [apply or_else_truthy; reflexivity|].
    split; [apply or_else_truthy; reflexivity|].
    split; [apply or_else_null|]. split; apply or_else_null. }
  assert (Hinj : forall a b : Metadata, Some a = Some b -> a = b)
    by (intros a b E; congruence).
  destruct v; intros H; try discriminate H;
    apply Hinj in H; rewrite <- H; apply Hbuild.
Qed.

Lemma probe_step_populated (ev : ProcEvent) (p : Probe) :
  (forall m, p_promise p = Some (inl m) -> populated m) ->
  forall m, p_promise (probe_step JSON_parse ev p) = Some (inl m) -> populated m.
Proof.
  intros Hp m. destruct ev as [d|d|f|code now|]; cbn; try apply Hp.
  - destruct (p_promise p) as [r|] eqn:Hr; cbn.
    + intros H. apply Hp. exact H.
    + destruct code as [[|c|c]|]; try discriminate.
      destruct (read_metadata JSON_parse (p_stdout p)) as [m'|] eqn:Hm;
        [|discriminate].
      intros [= <-]. eapply read_metadata_populated, Hm.
  - destruct (p_promise p) as [r|] eqn:Hr; cbn; [|discriminate].
    intros H. apply Hp. exact H.
Qed.

Lemma probe_run_populated (evs : list ProcEvent) (p : Probe) :
  (forall m, p_promise p = Some (inl m) -> populated m) ->
  forall m, p_promise (probe_run JSON_parse evs p) = Some (inl m) -> populated m.
Proof.
  revert p. induction evs as [|ev evs IH]; intros p Hp; [exact Hp|].
  unfold probe_run in *. cbn [foldl]. apply IH.
  apply probe_step_populated, Hp.
Qed.

(** A failed or pending prepare request writes neither objects, nor
    the map, nor the disk. *)
Lemma api_prepare_failure (url : option string) (evs : list ProcEvent)
    (uuid : string) (now : Z) (srv : Server) :
  (forall jobId m,
      (api_prepare JSON_parse url evs uuid now srv).1 <> Some (Prepared jobId m)) ->
  heap (api_prepare JSON_parse url evs uuid now srv).2 = heap srv
  /\ jobs (api_prepare JSON_parse url evs uuid now srv).2 = jobs srv
  /\ disk (api_prepare JSON_parse url evs uuid now srv).2 = disk srv.
Proof.
  intros H. unfold api_prepare in *.
  destruct url as [[|c u]|]; try (repeat split; fail).
  destruct (isValidYouTubeUrl (String c u)); [|repeat split].
  unfold getVideoMetadata in *.
  destruct (p_promise _) as [[m|msg]|]; cbn [fst snd] in *;
    try (repeat split; fail).
  exfalso. exact (H _ _ eq_refl).
Qed.

(** Changing the fields that the handlers write keeps the metadata. *)
Lemma alter_metadata (f : Job -> Job) (l l' : loc) (hp : gmap loc Job)
    (job' : Job) :
  (forall j, metadata (f j) = metadata j) ->
  alter f l hp !! l' = Some job' ->
  exists job, hp !! l' = Some job /\ metadata job' = metadata job.
Proof.
  intros Hf Hl. apply lookup_alter_Some in Hl as [(-> & x & Hx & ->)|[_ Hl]].
  - exists x. split; [exact Hx|apply Hf].
  - exists job'. split; [exact Hl|reflexivity].
Qed.

Lemma parse_progress_metadata (output : string) (j : Job) :
  metadata (parse_progress output j) = metadata j.
Proof.
  unfold parse_progress. destruct (Str.includes output "100%"); [reflexivity|].
  destruct (Str.includes output "%"); [|reflexivity].
  destruct (Str.match_percent output); reflexivity.
Qed.

Lemma conv_step_metadata (ev : ProcEvent) (cv : Conversion) (srv : Server)
    (l : loc) (job' : Job) :
  heap (conv_step ev (cv, srv)).2 !! l = Some job' ->
  exists job, heap srv !! l = Some job /\ metadata job' = metadata job.
Proof.
  assert (Hsame : heap srv !! l = Some job' ->
                  exists job, heap srv !! l = Some job
                              /\ metadata job' = metadata job) by eauto.
  destruct ev as [d|output|path|code now|]; cbn [conv_step snd fst];
    try exact Hsame.
  - unfold on_stderr_data. destruct (Str.includes output "[download]");
      cbn [snd]; [|exact Hsame].
    apply alter_metadata. apply parse_progress_metadata.
  - unfold on_close.
    destruct code as [[| |]|];
      try (cbn [snd]; apply alter_metadata; reflexivity).
    destruct (find _ _) as [[|c f]|]; cbn [snd]; apply alter_metadata;
      reflexivity.
  - unfold on_timeout. cbn [snd]. apply alter_metadata. reflexivity.
Qed.

End Populated.

Section Reachable.

Local Open Scope string_scope.

Variable tempDir : string.
Variable JSON_parse : string -> option json.
Variable ToString : json -> string.

Lemma server_step_populated (srv srv' : Server) :
  server_step tempDir JSON_parse ToString srv srv' ->
  heap_populated srv -> heap_populated srv'.
Proof.
  intros Hstep Hinv.
  destruct Hstep as [url evs uuid now srv|jobId format quality now srv
                    |ev cv srv job0 Hcv Hq|filePath jobId srv|now srv].
  - unfold api_prepare. destruct url as [[|c u]|]; try exact Hinv.
    destruct (isValidYouTubeUrl (String c u)); [|exact Hinv].
    unfold getVideoMetadata.
    destruct (p_promise _) as [[m|msg]|] eqn:Hp; cbn [fst snd];
      try exact Hinv.
    intros l job. cbn [heap jobs_set spawn].
    destruct (decide (l = fresh (dom (heap srv)))) as [->|Hne].
    + rewrite lookup_insert_eq. intros [= <-]. cbn [metadata].
      eapply (probe_run_populated JSON_parse evs); [|exact Hp].
      intros m' Hm'. discriminate Hm'.
    + rewrite lookup_insert_ne by congruence. apply Hinv.
  - unfold api_convert. destruct jobId as [[|c i]|]; try exact Hinv.
    destruct (jobs srv !! String c i) as [l0|] eqn:Hkey; [|exact Hinv].
    destruct (_ || _); [|exact Hinv].
    destruct (jobs_get (String c i) srv) as [job|]; [|exact Hinv].
    unfold performConversion. rewrite Hkey.
    rename l0 into l.
    destruct (heap srv !! l) as [job0|]; [|exact Hinv].
    cbn [snd spawn]. intros l' job'. cbn [heap jobs_set update_job].
    intros Hl'. apply alter_metadata in Hl' as (j & Hj & ->); [|reflexivity].
    apply (Hinv l' j Hj).
  - intros l job Hl.
    apply conv_step_metadata in Hl as (j & Hj & ->). apply (Hinv l j Hj).
  - exact Hinv.
  - unfold api_cleanup.
    pose proof (swept_all (now - CLEANUP_MAX_AGE) srv (jobs srv))
      as (Hheap & _).
    fold (sweep (now - CLEANUP_MAX_AGE) srv) in Hheap.
    destruct (sweep (now - CLEANUP_MAX_AGE) srv) as [s n]. cbn [fst snd] in *.
    intros l job. rewrite Hheap. apply Hinv.
Qed.

Lemma reachable_populated (srv : Server) :
  reachable tempDir JSON_parse ToString srv -> heap_populated srv.
Proof.
  unfold reachable. revert srv. apply rtc_ind_r.
  - intros l job Hl. cbn in Hl. rewrite lookup_empty in Hl. discriminate.
  - intros s1 s2 _ Hstep IH. eapply server_step_populated; eassumption.
Qed.

End Reachable.

(** C9.  A prepare request that is answered with an error, be it the
    400 of a missing or malformed URL or the 500 of a failed metadata
    fetch, leaves the job objects and the [jobs] map as they were (a
    400 leaves the whole state as it was), so no id is registered; and
    in every state the server can reach, each entry of the registry
    carries complete metadata. *)
Theorem failed_prepare_keeps_registry (tempDir : string)
    (JSON_parse : string -> option json) (ToString : json -> string) :
  (forall url evs uuid now srv code message,
      (api_prepare JSON_parse url evs uuid now srv).1
      = Some (ErrorJson code message) ->
      heap (api_prepare JSON_parse url evs uuid now srv).2 = heap srv
      /\ jobs (api_prepare JSON_parse url evs uuid now srv).2 = jobs srv
      /\ registry (api_prepare JSON_parse url evs uuid now srv).2 = registry srv
      /\ (code = 400%Z -> (api_prepare JSON_parse url evs uuid now srv).2 = srv))
  /\ (forall srv,
        reachable tempDir JSON_parse ToString srv ->
        forall jobId job,
          registry srv !! jobId = Some job -> populated (metadata job)).
Proof.
  split.
  - intros url evs uuid now srv code message Herr.
    destruct (api_prepare_failure JSON_parse url evs uuid now srv)
      as (Hheap & Hjobs & _).
    { intros jobId m Hok. rewrite Hok in Herr. discriminate. }
    split; [exact Hheap|]. split; [exact Hjobs|]. split.
    + unfold registry. rewrite Hheap, Hjobs. reflexivity.
    + intros ->. revert Herr. unfold api_prepare.
      destruct url as [[|c u]|]; try reflexivity.
      destruct (isValidYouTubeUrl (String c u)); [|reflexivity].
      unfold getVideoMetadata.
      destruct (p_promise _) as [[m|msg]|]; cbn [fst snd]; discriminate.
  - intros srv Hreach jobId job Hjob.
    rewrite registry_lookup in Hjob. unfold jobs_get in Hjob.
    destruct (jobs srv !! jobId) as [l|]; [|discriminate]. cbn in Hjob.
    exact (reachable_populated tempDir JSON_parse ToString srv Hreach l job Hjob).
Qed.

(** A request without a valid URL, and a request whose probe fails,
    both leave the registry of the sample server as it was. *)
Lemma failed_prepare_keeps_registry_witness :
  registry (api_prepare demo_parse (Some "not a url") [] "job-2" 3000
              demo_server).2 = registry demo_server
  /\ registry (api_prepare demo_parse (Some "https://youtu.be/aqz-KE-bpKQ")
                 [StdoutData "oops"; Close (Some 0%Z) 3100] "job-2" 3000
                 demo_server).2 = registry demo_server.
Proof.
  pose proof (failed_prepare_keeps_registry demo_tempDir demo_parse demo_ToString)
    as [Hfail _].
  split.
  - apply (Hfail (Some "not a url") [] "job-2" 3000%Z demo_server 400%Z
             "Please provide a valid YouTube URL").
    vm_compute. reflexivity.
  - apply (Hfail (Some "https://youtu.be/aqz-KE-bpKQ")
             [StdoutData "oops"; Close (Some 0%Z) 3100%Z] "job-2" 3000%Z
             demo_server 500%Z
             "Failed to prepare conversion: Failed to parse video metadata").
    vm_compute. reflexivity.
Defined.

(* ===================================================================== *)
(** * Scenarios *)
(* ===================================================================== *)

(** The end-to-end run of the specification: prepare, convert to mp3,
    the chunks of a download, a successful exit, the download and the
    deferred cleanup. *)
Example end_to_end :
  let '(prepared, s1) :=
    api_prepare demo_parse (Some "https://youtu.be/aqz-KE-bpKQ")
      [StdoutData "{ ... }"; Close (Some 0%Z) 900] "job-1" 1000 empty_server in
  let '(started, cv, s2) :=
    api_convert demo_tempDir demo_ToString (Some "job-1") "mp3" None 2000 s1 in
  let run evs := conv_run evs (default demo_conversion cv, s2) in
  let seen evs :=
    (fun j => (status j, progress j)) <$> jobs_get "job-1" (run evs).2 in
  let chunks :=
    [StderrData "[download]  50.0% of 3.00MiB";
     StderrData "[download] 100% of 3.00MiB in 00:02";
     FileWritten "/app/temp/Big_Buck_Bunny_2000.mp3";
     Close (Some 0%Z) 5000] in
  prepared
  = Some (Prepared "job-1"
            (mkMetadata (JStr "Big Buck Bunny") JNull (JNum (num 596))
                        (JStr "Blender Foundation") JNull))
  /\ started = Started "job-1"
  /\ seen [] = Some (DOWNLOADING, num 10)
  /\ seen (take 1 chunks) = Some (DOWNLOADING, num 35)
  /\ seen (take 2 chunks) = Some (CONVERTING, num 80)
  /\ seen chunks = Some (READY, num 100)
  /\ (api_download "job-1" (run chunks).2).1
     = FileStream "/app/temp/Big_Buck_Bunny_2000.mp3"
  /\ api_status "job-1"
       ((on_stream_end "/app/temp/Big_Buck_Bunny_2000.mp3" "job-1").2
          (run chunks).2) = ErrorJson 404 "Job not found".
Proof. vm_compute. repeat split. Qed.

(** Nothing prevents a second conversion of a job that is being
    converted: it sets the progress back to 10. *)
Example second_convert_resets_progress :
  let converting :=
    conv_run [StderrData "[download] 100% of 3.00MiB in 00:02"]
             (demo_conversion, demo_started) in
  let again :=
    api_convert demo_tempDir demo_ToString (Some "job-1") "mp3" None 9000
                converting.2 in
  (fun j => (status j, progress j)) <$> jobs_get "job-1" converting.2
  = Some (CONVERTING, num 80)
  /\ (fun j => (status j, progress j)) <$> jobs_get "job-1" again.2
     = Some (DOWNLOADING, num 10).
Proof. vm_compute. repeat split. Qed.

(** The timer of a finished conversion still fires: the job that the
    download had removed is put back in the map, with status [ERROR]. *)
Example timeout_restores_deleted_job :
  let finished :=
    conv_run [FileWritten "/app/temp/Big_Buck_Bunny_2000.mp3";
              Close (Some 0%Z) 5000] (demo_conversion, demo_started) in
  let cleaned :=
    download_cleanup "/app/temp/Big_Buck_Bunny_2000.mp3" "job-1" finished.2 in
  jobs_get "job-1" cleaned = None
  /\ status <$> jobs_get "job-1" (conv_step TimerFired (finished.1, cleaned)).2
     = Some ERROR.
Proof. vm_compute. repeat split. Qed.

(** A chunk with [100.0%] does not carry the marker [100%]: it is read
    as the percentage 100 and scaled to 70. *)
Example hundred_point_zero :
  progress <$> conv_job (on_stderr_data "[download] 100.0% of 3.00MiB"
                           (demo_conversion, demo_started))
  = Some (num 70).
Proof. vm_compute. reflexivity. Qed.
(* ===================================================================== *)
(** * Progress of every job of a reachable state *)
(* ===================================================================== *)

Section GlobalProgress.

Local Open Scope string_scope.

(** An event of a conversion writes no object but its own job. *)
Lemma conv_step_other (ev : ProcEvent) (cv : Conversion) (srv : Server)
    (l : loc) :
  l <> cv_job cv -> heap (conv_step ev (cv, srv)).2 !! l = heap srv !! l.
Proof.
  intros Hne.
  destruct ev as [d|output|path|code now|]; cbn [conv_step snd fst];
    try reflexivity.
  - unfold on_stderr_data. destruct (Str.includes output "[download]");
      cbn [snd]; [|reflexivity].
    cbn. apply lookup_alter_ne. congruence.
  - unfold on_close.
    destruct code as [[| |]|];
      try (cbn; apply lookup_alter_ne; congruence).
    destruct (find _ _) as [[|c f]|]; cbn; apply lookup_alter_ne; congruence.
  - unfold on_timeout. cbn. apply lookup_alter_ne. congruence.
Qed.

Variable tempDir : string.
Variable JSON_parse : string -> option json.
Variable ToString : json -> string.

Lemma server_step_progress (srv srv' : Server) :
  server_step tempDir JSON_parse ToString srv srv' ->
  heap_progress srv -> heap_progress srv'.
Proof.
  intros Hstep Hinv.
  destruct Hstep as [url evs uuid now srv|jobId format quality now srv
                    |ev cv srv job0 Hcv Hq|filePath jobId srv|now srv].
  - unfold api_prepare. destruct url as [[|c u]|]; try exact Hinv.
    destruct (isValidYouTubeUrl (String c u)); [|exact Hinv].
    unfold getVideoMetadata.
    destruct (p_promise _) as [[m|msg]|]; cbn [fst snd]; try exact Hinv.
    intros l job. cbn [heap jobs_set spawn].
    destruct (decide (l = fresh (dom (heap srv)))) as [->|Hne].
    + rewrite lookup_insert_eq. intros [= <-]. left. split; reflexivity.
    + rewrite lookup_insert_ne by congruence. apply Hinv.
  - unfold api_convert. destruct jobId as [[|c i]|]; try exact Hinv.
    destruct (jobs srv !! String c i) as [l0|] eqn:Hkey; [|exact Hinv].
    destruct (_ || _); [|exact Hinv].
    destruct (jobs_get (String c i) srv) as [job|]; [|exact Hinv].
    unfold performConversion. rewrite Hkey.
    rename l0 into l.
    destruct (heap srv !! l) as [job0|]; [|exact Hinv].
    cbn [snd spawn]. intros l' job'. cbn [heap jobs_set update_job].
    intros Hl'. unfold spawn, jobs_set, update_job in Hl'. cbn [heap] in Hl'.
    apply lookup_alter_Some in Hl' as [(-> & x & Hx & ->)|[_ Hl']].
    + right. unfold progress_ok. cbn. split; reflexivity.
    + apply (Hinv l' job' Hl').
  - intros l job Hl. destruct (decide (l = cv_job cv)) as [->|Hne].
    + destruct (conv_step_change ev cv srv job0 Hcv) as (_ & job' & Hjob' & Hch).
      unfold conv_job in Hjob'.
      destruct (conv_step ev (cv, srv)) as [cv1 srv1] eqn:Hstep.
      pose proof (f_equal (fun st => cv_job st.1) Hstep) as Hloc.
      destruct (conv_step_change ev cv srv job0 Hcv) as (Hsame & _).
      rewrite Hstep in Hsame. cbn [fst snd] in *.
      rewrite Hsame in Hjob'. assert (job = job') as -> by congruence.
      right. apply (job_change_ok ev job0); [|exact Hch].
      destruct (Hinv _ _ Hcv) as [[Hs _]|Hok]; [contradiction|exact Hok].
    + rewrite conv_step_other in Hl by exact Hne. apply (Hinv l job Hl).
  - exact Hinv.
  - unfold api_cleanup.
    pose proof (swept_all (now - CLEANUP_MAX_AGE) srv (jobs srv))
      as (Hheap & _).
    fold (sweep (now - CLEANUP_MAX_AGE) srv) in Hheap.
    destruct (sweep (now - CLEANUP_MAX_AGE) srv) as [s n]. cbn [fst snd] in *.
    intros l job. rewrite Hheap. apply Hinv.
Qed.

(** In every state the server can reach, whatever conversions were
    started and however their events interleave, each job object is
    either queued at 0 or within the values of its status. *)
Lemma reachable_progress (srv : Server) :
  reachable tempDir JSON_parse ToString srv -> heap_progress srv.
Proof.
  unfold reachable. revert srv. apply rtc_ind_r.
  - intros l job Hl. cbn in Hl. rewrite lookup_empty in Hl. discriminate.
  - intros s1 s2 _ Hstep IH. eapply server_step_progress; eassumption.
Qed.

Lemma progress_inv_facts (j : Job) :
  progress_inv j ->
  between 0 100 (progress j)
  /\ (status j = READY -> progress j = num 100)
  /\ (status j = DOWNLOADING -> leb (progress j) (num 70) = true)
  /\ ~ (ltb (num 80) (progress j) = true /\ ltb (progress j) (num 100) = true).
Proof.
  intros [[Hs Hp]|Hok].
  - rewrite Hs, Hp. split; [split; reflexivity|].
    split; [discriminate|]. split; [discriminate|].
    intros [H _]. vm_compute in H. discriminate.
  - split; [apply progress_ok_range, Hok|].
    split.
    { intros Hs. unfold progress_ok in Hok. rewrite Hs in Hok. exact Hok. }
    apply progress_ok_bands, Hok.
Qed.

End GlobalProgress.
(* ===================================================================== *)
(** * Progress: the statements *)
(* ===================================================================== *)

Section ProgressClaims.

Local Open Scope string_scope.

(** C2 (as stated, refuted).  After the chunk
    [[download]  45.2% of 3.00MiB] the progress of the sample job is
    [45 * 0.7 = 31.499999999999996], which is not an integer. *)
Lemma progress_fraction_counterexample :
  exists job,
    conv_job (conv_run [StderrData "[download]  45.2% of 3.00MiB"]
                (demo_conversion, demo_started)) = Some job
    /\ status job = DOWNLOADING
    /\ progress job = S754_finite false 8866461766385663 (-48)
    /\ isInteger (progress job) = false.
Proof. eexists. split; [vm_compute; reflexivity|]. repeat split. Qed.

(** C2 (amended).  In every state the server can reach, the progress
    of every job is a number between 0 and 100 (not always an integer),
    and it is 100 whenever the status is [READY].  For a job whose
    conversion has started and any sequence of events of that
    conversion: an event that finds the job in a non-terminal status
    does not decrease the progress, and an event that moves the job to
    [ERROR] leaves the progress as it was. *)
Theorem progress_discipline (tempDir : string)
    (JSON_parse : string -> option json) (ToString : json -> string) :
  (forall srv l job,
      reachable tempDir JSON_parse ToString srv ->
      heap srv !! l = Some job ->
      between 0 100 (progress job)
      /\ (status job = READY -> progress job = num 100))
  /\ (forall jobId url format quality now srv0 cv srv evs,
        performConversion tempDir ToString jobId url format quality now srv0
        = Some (cv, srv) ->
        exists job,
          conv_job (conv_run evs (cv, srv)) = Some job
          /\ between 0 100 (progress job)
          /\ (status job = READY -> progress job = num 100)
          /\ forall ev, exists job',
               conv_job (conv_step ev (conv_run evs (cv, srv))) = Some job'
               /\ (terminal (status job) = false ->
                   leb (progress job) (progress job') = true)
               /\ (status job' = ERROR -> status job <> ERROR ->
                   progress job' = progress job)).
Proof.
  split.
  { intros srv l job Hreach Hjob.
    pose proof (reachable_progress tempDir JSON_parse ToString srv Hreach
                  l job Hjob) as Hinv.
    destruct (progress_inv_facts job Hinv) as (Hrange & Hready & _).
    split; assumption. }
  intros jobId url format quality now srv0 cv srv evs Hstart.
  destruct (performConversion_ok _ _ _ _ _ _ _ _ _ _ Hstart) as (job0 & H0 & Hok0).
  destruct (conv_run_ok evs cv srv job0 H0 Hok0) as (job & Hjob & Hok).
  exists job. split; [exact Hjob|].
  split; [apply progress_ok_range, Hok|].
  split.
  { intros Hs. unfold progress_ok in Hok. rewrite Hs in Hok. exact Hok. }
  intros ev. destruct (conv_run evs (cv, srv)) as [cv1 srv1].
  destruct (conv_step_change ev cv1 srv1 job Hjob) as (_ & job' & Hjob' & Hch).
  exists job'. split; [exact Hjob'|]. split.
  - apply (job_change_monotone ev); assumption.
  - apply (job_change_error ev); assumption.
Qed.

Lemma progress_discipline_witness :
  exists job,
    conv_job (conv_run [StderrData "[download]  45.2% of 3.00MiB"]
                (demo_conversion, demo_started)) = Some job
    /\ between 0 100 (progress job).
Proof.
  assert (Hstart :
    performConversion demo_tempDir demo_ToString "job-1"
      "https://youtu.be/aqz-KE-bpKQ" "mp3" None 2000 demo_server
    = Some (demo_conversion, demo_started)) by (vm_compute; reflexivity).
  destruct (progress_discipline demo_tempDir demo_parse demo_ToString)
    as [_ Hrun].
  destruct (Hrun "job-1" "https://youtu.be/aqz-KE-bpKQ" "mp3" None 2000%Z
              demo_server demo_conversion demo_started
              [StderrData "[download]  45.2% of 3.00MiB"] Hstart)
    as (job & Hjob & Hrange & _).
  exists job. split; assumption.
Defined.

(** C10.  In every state the server can reach, a job whose status is
    [DOWNLOADING] has a progress of at most 70, and no job has a
    progress strictly between 80 and 100.  For a job whose conversion
    has started and any sequence of events of that conversion, an event
    other than the exit of the process takes the progress from at most
    70 to above 70 only if it is a chunk carrying [[download]] and
    [100%], which sets the status to [CONVERTING] and the progress to
    exactly 80. *)
Theorem progress_bands (tempDir : string)
    (JSON_parse : string -> option json) (ToString : json -> string) :
  (forall srv l job,
      reachable tempDir JSON_parse ToString srv ->
      heap srv !! l = Some job ->
      (status job = DOWNLOADING -> leb (progress job) (num 70) = true)
      /\ ~ (ltb (num 80) (progress job) = true
            /\ ltb (progress job) (num 100) = true))
  /\ (forall jobId url format quality now srv0 cv srv evs,
        performConversion tempDir ToString jobId url format quality now srv0
        = Some (cv, srv) ->
        exists job,
          conv_job (conv_run evs (cv, srv)) = Some job
          /\ (status job = DOWNLOADING -> leb (progress job) (num 70) = true)
          /\ ~ (ltb (num 80) (progress job) = true
                /\ ltb (progress job) (num 100) = true)
          /\ forall ev, is_close ev = false ->
               exists job',
                 conv_job (conv_step ev (conv_run evs (cv, srv))) = Some job'
                 /\ (leb (progress job) (num 70) = true ->
                     leb (progress job') (num 70) = false ->
                     (exists output,
                         ev = StderrData output
                         /\ Str.includes output "[download]" = true
                         /\ Str.includes output "100%" = true)
                     /\ status job' = CONVERTING /\ progress job' = num 80)).
Proof.
  split.
  { intros srv l job Hreach Hjob.
    pose proof (reachable_progress tempDir JSON_parse ToString srv Hreach
                  l job Hjob) as Hinv.
    destruct (progress_inv_facts job Hinv) as (_ & _ & Hd & Hgap).
    split; assumption. }
  intros jobId url format quality now srv0 cv srv evs Hstart.
  destruct (performConversion_ok _ _ _ _ _ _ _ _ _ _ Hstart) as (job0 & H0 & Hok0).
  destruct (conv_run_ok evs cv srv job0 H0 Hok0) as (job & Hjob & Hok).
  exists job. split; [exact Hjob|].
  destruct (progress_ok_bands job Hok) as [Hd Hgap].
  split; [exact Hd|]. split; [exact Hgap|].
  intros ev Hnc. destruct (conv_run evs (cv, srv)) as [cv1 srv1].
  destruct (conv_step_change ev cv1 srv1 job Hjob) as (_ & job' & Hjob' & Hch).
  exists job'. split; [exact Hjob'|].
  apply (job_change_above_70 ev); assumption.
Qed.

Lemma progress_bands_witness :
  exists job,
    conv_job (conv_run [StderrData "[download] 100% of 3.00MiB in 00:02"]
                (demo_conversion, demo_started)) = Some job
    /\ ~ (ltb (num 80) (progress job) = true
          /\ ltb (progress job) (num 100) = true).
Proof.
  assert (Hstart :
    performConversion demo_tempDir demo_ToString "job-1"
      "https://youtu.be/aqz-KE-bpKQ" "mp3" None 2000 demo_server
    = Some (demo_conversion, demo_started)) by (vm_compute; reflexivity).
  destruct (progress_bands demo_tempDir demo_parse demo_ToString)
    as [_ Hrun].
  destruct (Hrun "job-1" "https://youtu.be/aqz-KE-bpKQ" "mp3" None 2000%Z
              demo_server demo_conversion demo_started
              [StderrData "[download] 100% of 3.00MiB in 00:02"] Hstart)
    as (job & Hjob & _ & Hgap & _).
  exists job. split; assumption.
Defined.

End ProgressClaims.
(* ===================================================================== *)
(** * File names *)
(* ===================================================================== *)

Section Sanitize.

Local Open Scope string_scope.

Lemma all_chars_app (p : ascii -> bool) (a b : string) :
  all_chars p (a +:+ b) = all_chars p a && all_chars p b.
Proof.
  induction a as [|c a IH]; [reflexivity|].
  change (String c a +:+ b) with (String c (a +:+ b)). cbn.
  rewrite IH, andb_assoc. reflexivity.
Qed.

Lemma all_chars_impl (p q : ascii -> bool) (s : string) :
  (forall c, p c = true -> q c = true) ->
  all_chars p s = true -> all_chars q s = true.
Proof.
  intros Hpq. induction s as [|c s IH]; [reflexivity|]. cbn.
  rewrite !andb_true_iff. intros [Hc Hs]. auto.
Qed.

Lemma all_chars_drop_while (p q : ascii -> bool) (s : string) :
  all_chars p s = true -> all_chars p (Str.drop_while q s) = true.
Proof.
  induction s as [|c s IH]; [reflexivity|]. cbn.
  destruct (q c); [|exact (fun H => H)].
  rewrite andb_true_iff. intros [_ Hs]. exact (IH Hs).
Qed.

Lemma all_chars_rev_onto (p : ascii -> bool) (s acc : string) :
  all_chars p (Str.rev_onto s acc) = all_chars p s && all_chars p acc.
Proof.
  revert acc. induction s as [|c s IH]; intros acc; [reflexivity|].
  cbn. rewrite IH. cbn.
  destruct (p c), (all_chars p s), (all_chars p acc); reflexivity.
Qed.

Lemma all_chars_trim (p : ascii -> bool) (s : string) :
  all_chars p s = true -> all_chars p (Str.trim s) = true.
Proof.
  intros H. unfold Str.trim, Str.rev.
  rewrite all_chars_rev_onto, andb_true_r.
  apply all_chars_drop_while.
  rewrite all_chars_rev_onto, andb_true_r.
  apply all_chars_drop_while, H.
Qed.

Lemma all_chars_take (p : ascii -> bool) (n : nat) (s : string) :
  all_chars p s = true -> all_chars p (Str.take n s) = true.
Proof.
  revert s. induction n as [|n IH]; intros [|c s]; try reflexivity. cbn.
  rewrite !andb_true_iff. intros [Hc Hs]. auto.
Qed.

Lemma length_take (n : nat) (s : string) :
  (String.length (Str.take n s) <= n)%nat.
Proof.
  revert s. induction n as [|n IH]; intros [|c s]; cbn; try lia.
  specialize (IH s). lia.
Qed.

Lemma take_all (n : nat) (s : string) :
  (String.length s <= n)%nat -> Str.take n s = s.
Proof.
  revert s. induction n as [|n IH]; intros [|c s]; cbn; try reflexivity;
    try lia.
  intros H. rewrite IH by lia. reflexivity.
Qed.

Lemma all_chars_remove_special (s : string) :
  all_chars (fun c => Str.is_word c || Str.is_white c || Ascii.eqb c "-")
            (Str.remove_special s) = true.
Proof.
  induction s as [|c s IH]; [reflexivity|]. cbn.
  destruct (Str.is_word c || Str.is_white c || Ascii.eqb c "-") eqn:Hc;
    [|exact IH].
  cbn. rewrite Hc. exact IH.
Qed.

(** A word character is not white space. *)
Lemma word_not_white (c : ascii) :
  Str.is_word c = true -> Str.is_white c = false.
Proof.
  destruct c as [[] [] [] [] [] [] [] []]; vm_compute; congruence.
Qed.

Lemma filename_char_not_white (c : ascii) :
  filename_char c = true -> Str.is_white c = false.
Proof.
  unfold filename_char. intros H. apply orb_true_iff in H as [H|H].
  - apply word_not_white, H.
  - apply Ascii.eqb_eq in H. subst c. reflexivity.
Qed.

(** Squeezing the white space leaves word characters and dashes. *)
Lemma squeeze_white_chars (s : string) (b : bool) :
  all_chars (fun c => Str.is_word c || Str.is_white c || Ascii.eqb c "-") s
  = true ->
  all_chars filename_char (Str.squeeze_from Str.is_white "_" b s) = true.
Proof.
  revert b. induction s as [|c s IH]; intros b; [reflexivity|]. cbn.
  rewrite andb_true_iff. intros [Hc Hs].
  destruct (Str.is_white c) eqn:Hw.
  - destruct b; [apply IH, Hs|]. cbn. apply IH, Hs.
  - cbn. rewrite (IH false Hs), andb_true_r.
    unfold filename_char. rewrite orb_false_r in Hc. exact Hc.
Qed.

Lemma squeeze_dash_chars (s : string) (b : bool) :
  all_chars filename_char s = true ->
  all_chars filename_char (Str.squeeze_from (Ascii.eqb "-") "-" b s) = true.
Proof.
  revert b. induction s as [|c s IH]; intros b; [reflexivity|].
  cbn [Str.squeeze_from all_chars].
  rewrite andb_true_iff. intros [Hc Hs].
  destruct (Ascii.eqb "-" c) eqn:Hd.
  - destruct b; [apply IH, Hs|].
    cbn [all_chars]. rewrite (IH true Hs). reflexivity.
  - cbn [all_chars]. rewrite Hc. apply IH, Hs.
Qed.

(** After squeezing, no two dashes are adjacent. *)
Lemma squeeze_dash_no_run (s : string) (b : bool) :
  no_run (Ascii.eqb "-") b (Str.squeeze_from (Ascii.eqb "-") "-" b s) = true.
Proof.
  revert b. induction s as [|c s IH]; intros b; [reflexivity|].
  cbn [Str.squeeze_from].
  destruct (Ascii.eqb "-" c) eqn:Hd.
  - destruct b; [apply IH|].
    cbn [no_run]. rewrite Ascii.eqb_refl. apply IH.
  - cbn [no_run]. rewrite Hd, andb_false_r. apply IH.
Qed.

Lemma no_run_weaken (p : ascii -> bool) (s : string) :
  no_run p true s = true -> no_run p false s = true.
Proof.
  destruct s as [|c s]; [reflexivity|]. cbn.
  rewrite andb_true_iff. intros [_ H]. exact H.
Qed.

Lemma no_run_take (p : ascii -> bool) (n : nat) (s : string) (b : bool) :
  no_run p b s = true -> no_run p b (Str.take n s) = true.
Proof.
  revert s b. induction n as [|n IH]; intros [|c s] b; try reflexivity. cbn.
  rewrite !andb_true_iff. intros [Hc Hs]. auto.
Qed.

(** ** Texts on which the passes of [sanitizeFilename] do nothing *)

Lemma remove_special_id (s : string) :
  all_chars filename_char s = true -> Str.remove_special s = s.
Proof.
  induction s as [|c s IH]; [reflexivity|]. cbn.
  rewrite andb_true_iff. intros [Hc Hs].
  unfold filename_char in Hc.
  replace (Str.is_word c || Str.is_white c || Ascii.eqb c "-") with true.
  - rewrite (IH Hs). reflexivity.
  - symmetry. destruct (Str.is_word c); [reflexivity|]. cbn in Hc.
    rewrite Hc. apply orb_true_r.
Qed.

Lemma squeeze_white_id (s : string) (b : bool) :
  all_chars filename_char s = true ->
  Str.squeeze_from Str.is_white "_" b s = s.
Proof.
  revert b. induction s as [|c s IH]; intros b; [reflexivity|]. cbn.
  rewrite andb_true_iff. intros [Hc Hs].
  rewrite (filename_char_not_white c Hc), (IH false Hs). reflexivity.
Qed.

Lemma squeeze_dash_id (s : string) (b : bool) :
  no_run (Ascii.eqb "-") b s = true ->
  Str.squeeze_from (Ascii.eqb "-") "-" b s = s.
Proof.
  revert b. induction s as [|c s IH]; intros b; [reflexivity|].
  cbn [Str.squeeze_from no_run].
  rewrite andb_true_iff. intros [Hc Hs].
  destruct (Ascii.eqb "-" c) eqn:Hd.
  - destruct b; [discriminate Hc|].
    rewrite (IH true Hs). apply Ascii.eqb_eq in Hd. subst c. reflexivity.
  - rewrite (IH false Hs). reflexivity.
Qed.

Lemma drop_while_id (p q : ascii -> bool) (s : string) :
  (forall c, p c = true -> q c = false) ->
  all_chars p s = true -> Str.drop_while q s = s.
Proof.
  intros Hpq. destruct s as [|c s]; [reflexivity|]. cbn.
  rewrite andb_true_iff. intros [Hc _]. rewrite (Hpq c Hc). reflexivity.
Qed.

Lemma rev_onto_twice (s a b : string) :
  Str.rev_onto (Str.rev_onto s a) b = Str.rev_onto a (s +:+ b).
Proof.
  revert a b. induction s as [|c s IH]; intros a b; [reflexivity|].
  cbn [Str.rev_onto]. rewrite IH. reflexivity.
Qed.

Lemma trim_id (s : string) :
  all_chars filename_char s = true -> Str.trim s = s.
Proof.
  intros H. unfold Str.trim, Str.rev.
  rewrite (drop_while_id filename_char Str.is_white s
             filename_char_not_white H).
  rewrite (drop_while_id filename_char Str.is_white _ filename_char_not_white).
  - rewrite rev_onto_twice. cbn. apply str_app_nil_r.
  - rewrite all_chars_rev_onto, H. reflexivity.
Qed.

(** The text before the final cut to 100 characters. *)
Lemma sanitize_body (filename : string) :
  all_chars filename_char
    (Str.trim
       (Str.squeeze (Ascii.eqb "-") "-"
          (Str.squeeze Str.is_white "_" (Str.remove_special filename)))) = true
  /\ no_run (Ascii.eqb "-") false
       (Str.trim
          (Str.squeeze (Ascii.eqb "-") "-"
             (Str.squeeze Str.is_white "_" (Str.remove_special filename))))
     = true.
Proof.
  set (r := Str.squeeze (Ascii.eqb "-") "-"
              (Str.squeeze Str.is_white "_" (Str.remove_special filename))).
  assert (Hr : all_chars filename_char r = true).
  { apply squeeze_dash_chars, squeeze_white_chars, all_chars_remove_special. }
  rewrite (trim_id r Hr). split; [exact Hr|]. apply squeeze_dash_no_run.
Qed.

Lemma sanitize_facts (filename : string) :
  (String.length (sanitizeFilename filename) <= 100)%nat
  /\ all_chars filename_char (sanitizeFilename filename) = true
  /\ no_run (Ascii.eqb "-") false (sanitizeFilename filename) = true.
Proof.
  destruct (sanitize_body filename) as [Hall Hrun].
  split; [apply length_take|].
  split; [apply all_chars_take, Hall|apply no_run_take, Hrun].
Qed.

(** A text made of characters that [c] is not among does not hold [c]. *)
Lemma all_chars_excludes (p : ascii -> bool) (s : string) (c : ascii) :
  all_chars p s = true -> p c = false -> Str.includes s (String c "") = false.
Proof.
  intros Hs Hc. induction s as [|a s IH]; [reflexivity|].
  cbn in Hs. apply andb_true_iff in Hs as [Ha Hs].
  cbn. destruct (Ascii.eqb_spec c a) as [->|Hne]; [congruence|].
  apply IH, Hs.
Qed.

(** X1.  A sanitized file name has at most 100 characters, each of
    them a letter, a digit, an underscore or a dash, with no two
    dashes in a row; so it holds no slash, no dot and no space. *)
Theorem sanitizeFilename_safe (filename : string) :
  (String.length (sanitizeFilename filename) <= 100)%nat
  /\ all_chars filename_char (sanitizeFilename filename) = true
  /\ no_run (Ascii.eqb "-") false (sanitizeFilename filename) = true
  /\ Str.includes (sanitizeFilename filename) "/" = false
  /\ Str.includes (sanitizeFilename filename) "." = false
  /\ Str.includes (sanitizeFilename filename) " " = false.
Proof.
  destruct (sanitize_facts filename) as (Hlen & Hchars & Hrun).
  split; [exact Hlen|]. split; [exact Hchars|]. split; [exact Hrun|].
  repeat split; apply (all_chars_excludes filename_char); auto.
Qed.

(** X2.  Sanitizing is idempotent: a sanitized name is left as it is. *)
Theorem sanitizeFilename_idempotent (filename : string) :
  sanitizeFilename (sanitizeFilename filename) = sanitizeFilename filename.
Proof.
  destruct (sanitize_facts filename) as (Hlen & Hchars & Hrun).
  unfold sanitizeFilename at 1. unfold Str.squeeze.
  rewrite (remove_special_id _ Hchars), (squeeze_white_id _ false Hchars).
  rewrite (squeeze_dash_id _ false Hrun), (trim_id _ Hchars).
  apply take_all, Hlen.
Qed.

End Sanitize.
(* ===================================================================== *)
(** * Output paths of a conversion *)
(* ===================================================================== *)

Section Paths.

Local Open Scope string_scope.

Lemma filename_char_not_dot (c : ascii) :
  filename_char c = true -> not_dot c = true.
Proof.
  unfold not_dot. destruct (Ascii.eqb_spec c ".") as [->|_]; [|reflexivity].
  vm_compute. congruence.
Qed.

(** In a text without dots followed by an extension, the extension is
    found at the end of the text. *)
Lemma indexOf_extension (base ext : string) :
  all_chars not_dot base = true ->
  Str.indexOf (base +:+ String "." ext) (String "." ext)
  = Some (String.length base).
Proof.
  induction base as [|c base IH]; intros Hbase.
  - change ("" +:+ String "." ext) with (String "." ext).
    cbn [Str.indexOf]. rewrite strip_prefix_self. reflexivity.
  - cbn [all_chars] in Hbase. apply andb_true_iff in Hbase as [Hc Hb].
    change (String c base +:+ String "." ext)
      with (String c (base +:+ String "." ext)).
    cbn [Str.indexOf Str.strip_prefix String.length].
    unfold not_dot in Hc. rewrite Ascii.eqb_sym in Hc.
    apply negb_true_iff in Hc. rewrite Hc, (IH Hb). reflexivity.
Qed.

Lemma replace_extension (base ext new : string) :
  all_chars not_dot base = true ->
  Str.replace (base +:+ String "." ext) (String "." ext) new = base +:+ new.
Proof.
  intros Hbase. apply replace_suffix, indexOf_extension, Hbase.
Qed.

(** X3.  When the path of the working directory holds no dot, a
    conversion to mp3 or mp4 works on one base name,
    [tempDir/sanitized-title_time]: the output path is the base with
    the format as extension, [yt-dlp] is told to write to the base
    with its own extension ([--output base.%(ext)s], followed by the
    URL as last argument), and the five candidates tried at exit are
    the base with the format, [.mp3], [.mp4], [.webm] and [.m4a]. *)
Theorem conversion_paths (tempDir : string) (ToString : json -> string)
    (jobId url format : string) (quality : option string) (now : Z)
    (srv0 : Server) (cv : Conversion) (srv : Server) :
  all_chars not_dot tempDir = true ->
  format = "mp3" \/ format = "mp4" ->
  performConversion tempDir ToString jobId url format quality now srv0
  = Some (cv, srv) ->
  exists job base,
    jobs_get jobId srv0 = Some job
    /\ base = tempDir +:+ "/"
              +:+ sanitizeFilename
                    (ToString (title (metadata job)) +:+ "_" +:+ pretty now)
    /\ cv_outputPath cv = base +:+ "." +:+ format
    /\ cv_format cv = format
    /\ possibleFiles (cv_outputPath cv) (cv_format cv)
       = [base +:+ "." +:+ format; base +:+ ".mp3"; base +:+ ".mp4";
          base +:+ ".webm"; base +:+ ".m4a"]
    /\ exists options,
        spawned srv
        = (spawned srv0
           ++ [options ++ ["--output"; base +:+ ".%(ext)s"; url]])%list.
Proof.
  intros Hdir Hformat. unfold performConversion, jobs_get.
  destruct (jobs srv0 !! jobId) as [l|]; [|discriminate]. cbn [mbind option_bind].
  destruct (heap srv0 !! l) as [job|]; [|discriminate].
  intros [= <- <-]. cbn [cv_outputPath cv_format spawned spawn jobs_set update_job].
  set (name := sanitizeFilename
                 (ToString (title (metadata job)) +:+ "_" +:+ pretty now)).
  set (base := tempDir +:+ "/" +:+ name).
  assert (Hbase : all_chars not_dot base = true).
  { unfold base. rewrite !all_chars_app, Hdir. cbn.
    apply (all_chars_impl filename_char); [apply filename_char_not_dot|].
    apply sanitize_facts. }
  assert (Hpath : forall ext,
            tempDir +:+ "/" +:+ name +:+ "." +:+ ext = base +:+ String "." ext).
  { intros ext. unfold base. rewrite !str_app_assoc. reflexivity. }
  exists job, base. split; [reflexivity|]. split; [reflexivity|].
  rewrite Hpath. split; [reflexivity|]. split; [reflexivity|]. split.
  - unfold possibleFiles. change ("." +:+ format) with (String "." format).
    rewrite !(replace_extension base format _ Hbase). reflexivity.
  - unfold ytDlpArgs.
    destruct Hformat as [-> | ->]; cbn [String.eqb Ascii.eqb Bool.eqb orb].
    + rewrite (replace_extension base "mp3" _ Hbase).
      exists ["--no-playlist"; "--extract-flat"; "false"; "--extract-audio";
              "--audio-format"; "mp3"; "--audio-quality"; "192K"].
      reflexivity.
    + rewrite (replace_extension base "mp4" _ Hbase).
      exists ["--no-playlist"; "--extract-flat"; "false"; "--format";
              formatSelector (default "720p" quality);
              "--merge-output-format"; "mp4"].
      reflexivity.
Qed.

Lemma conversion_paths_witness :
  possibleFiles (cv_outputPath demo_conversion) (cv_format demo_conversion)
  = ["/app/temp/Big_Buck_Bunny_2000.mp3"; "/app/temp/Big_Buck_Bunny_2000.mp3";
     "/app/temp/Big_Buck_Bunny_2000.mp4"; "/app/temp/Big_Buck_Bunny_2000.webm";
     "/app/temp/Big_Buck_Bunny_2000.m4a"].
Proof.
  assert (Hstart :
    performConversion demo_tempDir demo_ToString "job-1"
      "https://youtu.be/aqz-KE-bpKQ" "mp3" None 2000 demo_server
    = Some (demo_conversion, demo_started)) by (vm_compute; reflexivity).
  destruct (conversion_paths demo_tempDir demo_ToString "job-1"
              "https://youtu.be/aqz-KE-bpKQ" "mp3" None 2000%Z demo_server
              demo_conversion demo_started eq_refl (or_introl eq_refl) Hstart)
    as (job & base & Hjob & Hbase & _ & _ & Hfiles & _).
  rewrite Hfiles, Hbase.
  assert (Hsame : Some job = Some demo_job)
    by (rewrite <- Hjob; vm_compute; reflexivity).
  injection Hsame as ->. vm_compute. reflexivity.
Defined.

End Paths.

(* ===================================================================== *)
(** * Valid URLs *)
(* ===================================================================== *)

Section Urls.

Local Open Scope string_scope.

Lemma strip_prefix_Some (p s r : string) :
  Str.strip_prefix p s = Some r -> s = p +:+ r.
Proof.
  revert s. induction p as [|a p IH]; intros s; cbn.
  - intros [= ->]. reflexivity.
  - destruct s as [|b s]; [discriminate|].
    destruct (Ascii.eqb_spec a b) as [->|_]; [|discriminate].
    intros H. rewrite (IH _ H). reflexivity.
Qed.

(** What one pattern accepts. *)
Lemma matches_any_shape (alternatives : list string) (url : string) :
  matches_any alternatives url = true ->
  exists scheme www alt c rest,
    (scheme = "http://" \/ scheme = "https://")
    /\ (www = "" \/ www = "www.")
    /\ In alt alternatives
    /\ starts_with_id (String c rest) = true
    /\ url = scheme +:+ www +:+ alt +:+ String c rest.
Proof.
  unfold matches_any.
  destruct (Str.strip_prefix "http" url) as [r1|] eqn:H1; [|discriminate].
  apply strip_prefix_Some in H1. subst url.
  destruct (Str.strip_prefix "://" (strip_optional "s" r1)) as [r2|] eqn:H2;
    [|discriminate].
  apply strip_prefix_Some in H2.
  intros Hany. apply existsb_exists in Hany as (alt & Halt & Hrest).
  destruct (Str.strip_prefix alt (strip_optional "www." r2)) as [r4|] eqn:H4;
    [|discriminate].
  apply strip_prefix_Some in H4.
  destruct r4 as [|c rest]; [discriminate|].
  assert (Hscheme : exists scheme,
            (scheme = "http://" \/ scheme = "https://")
            /\ "http" +:+ r1 = scheme +:+ r2).
  { unfold strip_optional in H2.
    destruct (Str.strip_prefix "s" r1) as [r1'|] eqn:Hs.
    - apply strip_prefix_Some in Hs. subst r1 r1'.
      exists "https://". split; [auto|reflexivity].
    - subst r1. exists "http://". split; [auto|reflexivity]. }
  destruct Hscheme as (scheme & Hscheme & ->).
  assert (Hwww : exists www,
            (www = "" \/ www = "www.")
            /\ r2 = www +:+ alt +:+ String c rest).
  { unfold strip_optional in H4.
    destruct (Str.strip_prefix "www." r2) as [r3|] eqn:Hw.
    - apply strip_prefix_Some in Hw. subst r2 r3.
      exists "www.". split; [auto|reflexivity].
    - subst r2. exists "". split; [auto|reflexivity]. }
  destruct Hwww as (www & Hwww & ->).
  exists scheme, www, alt, c, rest. auto.
Qed.

(** X4.  The server accepts a URL exactly when it is [http://] or
    [https://], an optional [www.], one of the five YouTube prefixes
    and at least one letter, digit, underscore or dash.  Nothing after
    that character is examined: any text appended to a valid URL gives
    a valid URL. *)
Theorem valid_url_shape (url : string) :
  (isValidYouTubeUrl url = true <->
   exists scheme www alt c rest,
     (scheme = "http://" \/ scheme = "https://")
     /\ (www = "" \/ www = "www.")
     /\ In alt youtube_prefixes
     /\ filename_char c = true
     /\ url = scheme +:+ www +:+ alt +:+ String c rest)
  /\ (isValidYouTubeUrl url = true ->
      forall suffix, isValidYouTubeUrl (url +:+ suffix) = true).
Proof.
  assert (Hback : forall scheme www alt c rest,
            (scheme = "http://" \/ scheme = "https://") ->
            (www = "" \/ www = "www.") ->
            In alt youtube_prefixes ->
            filename_char c = true ->
            isValidYouTubeUrl (scheme +:+ www +:+ alt +:+ String c rest) = true).
  { intros scheme www alt c rest Hs Hw Ha Hc.
    assert (Htail : starts_with_id (String c rest) = true) by exact Hc.
    revert Htail. generalize (String c rest). intros tail Htail.
    unfold isValidYouTubeUrl, matches_any. cbn in Ha.
    destruct Hs as [Hs|Hs], Hw as [Hw|Hw],
      Ha as [Ha|[Ha|[Ha|[Ha|[Ha|[]]]]]]; subst;
      cbv [String.append]; cbn; rewrite Htail; reflexivity. }
  assert (Hforth : isValidYouTubeUrl url = true ->
            exists scheme www alt c rest,
              (scheme = "http://" \/ scheme = "https://")
              /\ (www = "" \/ www = "www.")
              /\ In alt youtube_prefixes
              /\ filename_char c = true
              /\ url = scheme +:+ www +:+ alt +:+ String c rest).
  { unfold isValidYouTubeUrl. intros H. apply orb_true_iff in H as [H|H];
      apply matches_any_shape in H
        as (scheme & www & alt & c & rest & Hs & Hw & Ha & Hc & ->);
      exists scheme, www, alt, c, rest;
      (split; [exact Hs|]); (split; [exact Hw|]);
      (split; [cbn in *; tauto|]); (split; [exact Hc|reflexivity]). }
  split; [split; [exact Hforth|]|].
  - intros (scheme & www & alt & c & rest & Hs & Hw & Ha & Hc & ->).
    apply Hback; assumption.
  - intros Hvalid suffix.
    destruct (Hforth Hvalid)
      as (scheme & www & alt & c & rest & Hs & Hw & Ha & Hc & ->).
    rewrite !str_app_assoc.
    change (String c rest +:+ suffix) with (String c (rest +:+ suffix)).
    apply Hback; assumption.
Qed.

End Urls.
(* ===================================================================== *)
(** * The convert and prepare endpoints *)
(* ===================================================================== *)

Section ConvertPrepare.

Local Open Scope string_scope.

(** X5.  The convert endpoint answers 404 ['Job not found'] when the id
    is missing, empty or unknown, and 400 when the job is known but the
    format is neither mp3 nor mp4 (an unknown job with a bad format
    gets the 404); in both cases nothing is written and no process is
    spawned.  Otherwise, whatever the status of the job, it answers
    that the conversion started: the job is set to [DOWNLOADING] with
    progress 10, one [yt-dlp] process is spawned whose last argument is
    the URL of the job, and the other entries and the disk are
    untouched. *)
Theorem api_convert_contract (tempDir : string) (ToString : json -> string)
    (jobId : option string) (format : string) (quality : option string)
    (now : Z) (srv : Server) :
  (jobId = None \/ jobId = Some ""
   \/ (exists i, jobId = Some i /\ jobs srv !! i = None) ->
   api_convert tempDir ToString jobId format quality now srv
   = (ErrorJson 404 "Job not found", None, srv))
  /\ (forall i l,
        jobId = Some i -> i <> "" -> jobs srv !! i = Some l ->
        format <> "mp3" -> format <> "mp4" ->
        api_convert tempDir ToString jobId format quality now srv
        = (ErrorJson 400 "Invalid format. Use mp3 or mp4", None, srv))
  /\ (forall i job,
        jobId = Some i -> i <> "" -> jobs_get i srv = Some job ->
        format = "mp3" \/ format = "mp4" ->
        exists cv srv',
          api_convert tempDir ToString jobId format quality now srv
          = (Started i, Some cv, srv')
          /\ cv_jobId cv = i /\ cv_format cv = format
          /\ jobs_get i srv'
             = Some (set_progress (num 10) (set_status DOWNLOADING job))
          /\ (forall other, other <> i -> jobs srv' !! other = jobs srv !! other)
          /\ disk srv' = disk srv
          /\ exists args,
              spawned srv' = (spawned srv ++ [args])%list
              /\ last args = Some (job_url job)).
Proof.
  split; [|split].
  - intros [-> |[-> |(i & -> & Hi)]]; try reflexivity.
    unfold api_convert. destruct i; [reflexivity|]. rewrite Hi. reflexivity.
  - intros i l -> Hne Hl H3 H4. unfold api_convert.
    destruct i as [|c i]; [congruence|]. rewrite Hl.
    apply String.eqb_neq in H3, H4. rewrite H3, H4. reflexivity.
  - intros i job -> Hne Hjob Hformat. unfold api_convert.
    destruct i as [|c i]; [congruence|].
    pose proof Hjob as Hget. unfold jobs_get in Hget.
    destruct (jobs srv !! String c i) as [l|] eqn:Hl; [|discriminate].
    cbn in Hget.
    assert (Hok : String.eqb format "mp3" || String.eqb format "mp4" = true).
    { destruct Hformat as [-> | ->]; reflexivity. }
    rewrite Hok, Hjob. unfold performConversion. rewrite Hl, Hget.
    eexists _, _. split; [reflexivity|].
    split; [reflexivity|]. split; [reflexivity|]. split.
    { unfold jobs_get. cbn [spawn jobs_set jobs heap update_job].
      rewrite lookup_insert_eq. cbn. rewrite lookup_alter_eq, Hget.
      reflexivity. }
    split.
    { intros other Hother. cbn. apply lookup_insert_ne. congruence. }
    split; [reflexivity|].
    eexists. split; [reflexivity|].
    unfold ytDlpArgs. rewrite app_assoc. apply last_snoc.
Qed.

Lemma api_convert_contract_witness :
  exists cv srv',
    api_convert demo_tempDir demo_ToString (Some "job-1") "mp4" (Some "1080p")
                2000 demo_server = (Started "job-1", Some cv, srv')
    /\ jobs_get "job-1" srv'
       = Some (set_progress (num 10) (set_status DOWNLOADING demo_job)).
Proof.
  destruct (api_convert_contract demo_tempDir demo_ToString (Some "job-1")
              "mp4" (Some "1080p") 2000%Z demo_server) as (_ & _ & Hok).
  destruct (Hok "job-1" demo_job eq_refl) as (cv & srv' & Hc & _ & _ & Hj & _).
  - discriminate.
  - reflexivity.
  - right. reflexivity.
  - exists cv, srv'. split; assumption.
Defined.

Variable JSON_parse : string -> option json.

(** The promise of a probe that was pending is settled by the first
    close or timer event among those delivered. *)
Lemma probe_run_first (evs : list ProcEvent) (p : Probe)
    (r : Metadata + string) :
  p_promise p = None ->
  p_promise (probe_run JSON_parse evs p) = Some r ->
  exists pre ev post,
    evs = (pre ++ ev :: post)%list /\ forallb is_data pre = true
    /\ is_data ev = false
    /\ p_promise (probe_step JSON_parse ev (probe_run JSON_parse pre p))
       = Some r.
Proof.
  revert p. induction evs as [|ev evs IH]; intros p Hp Hr.
  - cbn in Hr. congruence.
  - destruct (is_data ev) eqn:Hev.
    + assert (Hp' : p_promise (probe_step JSON_parse ev p) = None).
      { destruct ev; try discriminate; exact Hp. }
      change (probe_run JSON_parse (ev :: evs) p)
        with (probe_run JSON_parse evs (probe_step JSON_parse ev p)) in Hr.
      destruct (IH _ Hp' Hr) as (pre & ev' & post & -> & Hpre & Hev' & Hstep).
      exists (ev :: pre), ev', post. split; [reflexivity|].
      split; [cbn; rewrite Hev; exact Hpre|]. split; [exact Hev'|].
      exact Hstep.
    + exists [], ev, evs. split; [reflexivity|]. split; [reflexivity|].
      split; [exact Hev|].
      change (probe_run JSON_parse (ev :: evs) p)
        with (probe_run JSON_parse evs (probe_step JSON_parse ev p)) in Hr.
      change (probe_run JSON_parse [] p) with p.
      destruct (p_promise (probe_step JSON_parse ev p)) as [r'|] eqn:Hs.
      * rewrite (probe_run_settled JSON_parse evs _ r' Hs) in Hr. exact Hr.
      * destruct ev; try discriminate; cbn in Hs; rewrite Hp in Hs;
          discriminate.
Qed.

(** X6.  A prepare request answers with a job only when the URL is
    valid and the first close or timer event of the probe is a close
    with code 0 whose output is readable; the metadata of the answer is
    the complete record read from that output.  The job is then
    registered under the generated id, queued at progress 0 with no
    output path and no error, created at the time of the request;
    every other entry, every other job object and the disk are
    unchanged, and exactly one process was spawned. *)
Theorem prepare_registers_job (url : option string) (evs : list ProcEvent)
    (uuid : string) (now : Z) (srv : Server) (jobId : string) (m : Metadata) :
  (api_prepare JSON_parse url evs uuid now srv).1 = Some (Prepared jobId m) ->
  jobId = uuid /\ populated m
  /\ exists u,
      url = Some u /\ isValidYouTubeUrl u = true
      /\ (exists pre code_time post,
            evs = (pre ++ Close (Some 0%Z) code_time :: post)%list
            /\ forallb is_data pre = true
            /\ read_metadata JSON_parse (stdout_of pre) = Some m)
      /\ jobs_get uuid (api_prepare JSON_parse url evs uuid now srv).2
         = Some (mkJob uuid u m QUEUED (num 0) now None None None)
      /\ (forall other, other <> uuid ->
            jobs (api_prepare JSON_parse url evs uuid now srv).2 !! other
            = jobs srv !! other)
      /\ (forall l job, heap srv !! l = Some job ->
            heap (api_prepare JSON_parse url evs uuid now srv).2 !! l = Some job)
      /\ disk (api_prepare JSON_parse url evs uuid now srv).2 = disk srv
      /\ spawned (api_prepare JSON_parse url evs uuid now srv).2
         = (spawned srv ++ [probe_args u])%list.
Proof.
  unfold api_prepare. destruct url as [[|c u]|]; try discriminate.
  destruct (isValidYouTubeUrl (String c u)) eqn:Hvalid; [|discriminate].
  unfold getVideoMetadata.
  destruct (p_promise (probe_run JSON_parse evs (mkProbe "" "" false None)))
    as [[m'|msg]|] eqn:Hp; cbn [fst snd]; try discriminate.
  intros [= <- <-].
  destruct (probe_run_first evs (mkProbe "" "" false None) _ eq_refl Hp)
    as (pre & ev & post & -> & Hpre & Hev & Hstep).
  rewrite (probe_run_data JSON_parse pre _ Hpre) in Hstep.
  cbn [p_stdout p_stderr p_killed p_promise] in Hstep.
  change ("" +:+ stdout_of pre) with (stdout_of pre) in Hstep.
  assert (Hread : exists t, ev = Close (Some 0%Z) t
                            /\ read_metadata JSON_parse (stdout_of pre) = Some m').
  { destruct ev as [d|d|f|code t|]; try discriminate Hev.
    - cbn in Hstep. destruct code as [[|q|q]|]; try discriminate Hstep.
      destruct (read_metadata JSON_parse (stdout_of pre)) as [m0|];
        [|discriminate Hstep].
      exists t. split; [reflexivity|]. congruence.
    - cbn in Hstep. discriminate Hstep. }
  destruct Hread as (t & -> & Hread).
  split; [reflexivity|].
  split; [eapply read_metadata_populated, Hread|].
  exists (String c u). split; [reflexivity|]. split; [exact Hvalid|].
  split; [exists pre, t, post; auto|].
  cbn [jobs_set spawn heap jobs disk spawned].
  pose proof (is_fresh (dom (heap srv))) as Hfresh.
  apply not_elem_of_dom in Hfresh.
  split.
  { unfold jobs_get. cbn. rewrite lookup_insert_eq. cbn.
    rewrite lookup_insert_eq. reflexivity. }
  split.
  { intros other Hother. apply lookup_insert_ne. congruence. }
  split.
  { intros l job Hl. rewrite lookup_insert_ne; [exact Hl|]. congruence. }
  split; reflexivity.
Qed.

End ConvertPrepare.

Lemma prepare_registers_job_witness :
  jobs_get "job-1"
    (api_prepare demo_parse (Some "https://youtu.be/aqz-KE-bpKQ")
       [StdoutData "{ ... }"; Close (Some 0%Z) 900] "job-1" 1000
       empty_server).2
  = Some demo_job.
Proof.
  destruct (prepare_registers_job demo_parse
              (Some "https://youtu.be/aqz-KE-bpKQ")
              [StdoutData "{ ... }"; Close (Some 0%Z) 900%Z] "job-1" 1000%Z
              empty_server "job-1" demo_metadata)
    as (_ & _ & u & Hu & _ & _ & Hjob & _).
  - vm_compute. reflexivity.
  - injection Hu as <-. rewrite Hjob. reflexivity.
Defined.
(* ===================================================================== *)
(** * A conversion that fails, and what the fields of a job tell *)
(* ===================================================================== *)

Section ConversionMore.

Local Open Scope string_scope.

Lemma conversion_error_nonempty (stderr : string) :
  exists c e, conversion_error stderr = String c e.
Proof.
  unfold conversion_error.
  destruct (Str.trim stderr) as [|c e]; cbn; eauto.
Qed.




(** ** Fields that go with a status *)

Lemma alter_preserves (P : Job -> Prop) (f : Job -> Job) (l : loc)
    (hp : gmap loc Job) :
  (forall l' j, hp !! l' = Some j -> P j) ->
  (forall j, hp !! l = Some j -> P j -> P (f j)) ->
  forall l' j', alter f l hp !! l' = Some j' -> P j'.
Proof.
  intros Hall Hf l' j' Hl'.
  apply lookup_alter_Some in Hl' as [(-> & x & Hx & ->)|[_ Hl']].
  - apply (Hf x Hx), (Hall _ _ Hx).
  - apply (Hall _ _ Hl').
Qed.

Lemma parse_progress_fields (output : string) (j : Job) :
  fields_ok j -> fields_ok (parse_progress output j).
Proof.
  unfold parse_progress. destruct (Str.includes output "100%"); [intros _; exact I|].
  destruct (Str.includes output "%"); [|exact (fun H => H)].
  destruct (Str.match_percent output); exact (fun H => H).
Qed.

Lemma update_job_fields (l : loc) (f : Job -> Job) (jobId : string)
    (srv : Server) :
  heap_fields srv -> (forall j, fields_ok j -> fields_ok (f j)) ->
  heap_fields (jobs_set jobId l (update_job l f srv)).
Proof.
  intros Hinv Hf l' j' Hl'. unfold jobs_set, update_job in Hl'. cbn [heap] in Hl'.
  revert l' j' Hl'. apply alter_preserves; [exact Hinv|].
  intros j _. apply Hf.
Qed.

Lemma conv_step_fields (ev : ProcEvent) (cv : Conversion) (srv : Server) :
  heap_fields srv -> heap_fields (conv_step ev (cv, srv)).2.
Proof.
  intros Hinv.
  destruct ev as [d|output|path|code now|]; cbn [conv_step snd fst];
    try exact Hinv.
  - unfold on_stderr_data. destruct (Str.includes output "[download]");
      cbn [snd]; [|exact Hinv].
    apply update_job_fields; [exact Hinv|]. apply parse_progress_fields.
  - unfold on_close.
    assert (Herr : forall e c r, e = String c r ->
      heap_fields
        (jobs_set (cv_jobId cv) (cv_job cv)
           (update_job (cv_job cv)
              (fun j => set_error e (set_status ERROR j)) srv))).
    { intros e c r ->. apply update_job_fields; [exact Hinv|].
      intros j _. exists c, r. reflexivity. }
    destruct code as [[| |]|];
      try (cbn [snd]; destruct (conversion_error_nonempty (cv_stderr cv))
             as (c & r & Hce); apply (Herr _ c r Hce)).
    destruct (find _ _) as [[|c f]|]; cbn [snd];
      try (eapply Herr; reflexivity).
    apply update_job_fields; [exact Hinv|].
    intros j _. split; [exists c, f; reflexivity|eexists; reflexivity].
  - unfold on_timeout. cbn [snd]. apply update_job_fields; [exact Hinv|].
    intros j _. eexists _, _. reflexivity.
Qed.

Variable tempDir : string.
Variable JSON_parse : string -> option json.
Variable ToString : json -> string.

Lemma server_step_fields (srv srv' : Server) :
  server_step tempDir JSON_parse ToString srv srv' ->
  heap_fields srv -> heap_fields srv'.
Proof.
  intros Hstep Hinv.
  destruct Hstep as [url evs uuid now srv|jobId format quality now srv
                    |ev cv srv job0 Hcv Hq|filePath jobId srv|now srv].
  - unfold api_prepare. destruct url as [[|c u]|]; try exact Hinv.
    destruct (isValidYouTubeUrl (String c u)); [|exact Hinv].
    unfold getVideoMetadata.
    destruct (p_promise _) as [[m|msg]|]; cbn [fst snd]; try exact Hinv.
    intros l job. cbn [heap jobs_set spawn].
    destruct (decide (l = fresh (dom (heap srv)))) as [->|Hne].
    + rewrite lookup_insert_eq. intros [= <-]. repeat split.
    + rewrite lookup_insert_ne by congruence. apply Hinv.
  - unfold api_convert. destruct jobId as [[|c i]|]; try exact Hinv.
    destruct (jobs srv !! String c i) as [l|] eqn:Hkey; [|exact Hinv].
    destruct (_ || _); [|exact Hinv].
    destruct (jobs_get (String c i) srv) as [job|]; [|exact Hinv].
    unfold performConversion. rewrite Hkey.
    destruct (heap srv !! l) as [job0|]; [|exact Hinv].
    cbn [snd]. intros l' j' Hl'. unfold spawn, jobs_set, update_job in Hl'.
    cbn [heap] in Hl'. revert l' j' Hl'.
    apply alter_preserves; [exact Hinv|]. intros j _ _. exact I.
  - apply conv_step_fields, Hinv.
  - exact Hinv.
  - unfold api_cleanup.
    pose proof (swept_all (now - CLEANUP_MAX_AGE) srv (jobs srv))
      as (Hheap & _).
    fold (sweep (now - CLEANUP_MAX_AGE) srv) in Hheap.
    destruct (sweep (now - CLEANUP_MAX_AGE) srv) as [s n]. cbn [fst snd] in *.
    intros l job. rewrite Hheap. apply Hinv.
Qed.

Lemma reachable_fields (srv : Server) :
  reachable tempDir JSON_parse ToString srv -> heap_fields srv.
Proof.
  unfold reachable. revert srv. apply rtc_ind_r.
  - intros l j Hl. cbn in Hl. rewrite lookup_empty in Hl. discriminate.
  - intros s1 s2 _ Hstep IH. eapply server_step_fields; eassumption.
Qed.

(** X8.  In every state the server can reach, the fields of each
    registered job agree with its status: a [READY] job has an output
    path that is not empty and a completion time, an [ERROR] job has an
    error message that is not empty, and a [QUEUED] job has no output
    path, no error and no completion time. *)
Theorem status_fields (srv : Server) (jobId : string) (job : Job) :
  reachable tempDir JSON_parse ToString srv ->
  jobs_get jobId srv = Some job ->
  (status job = READY ->
   (exists c f, outputPath job = Some (String c f))
   /\ is_Some (completedAt job))
  /\ (status job = ERROR -> exists c e, error job = Some (String c e))
  /\ (status job = QUEUED ->
      outputPath job = None /\ error job = None /\ completedAt job = None).
Proof.
  intros Hreach Hjob.
  pose proof (reachable_fields srv Hreach) as Hinv.
  unfold jobs_get in Hjob. destruct (jobs srv !! jobId) as [l|]; [|discriminate].
  cbn in Hjob. specialize (Hinv l job Hjob). unfold fields_ok in Hinv.
  split; [|split]; intros Hs; rewrite Hs in Hinv; exact Hinv.
Qed.

End ConversionMore.

Lemma status_fields_witness :
  outputPath demo_job = None /\ error demo_job = None
  /\ completedAt demo_job = None.
Proof.
  assert (Hreach : reachable demo_tempDir demo_parse demo_ToString
            (api_prepare demo_parse (Some "https://youtu.be/aqz-KE-bpKQ")
               [StdoutData "{ ... }"; Close (Some 0%Z) 900] "job-1" 1000
               empty_server).2).
  { apply rtc_once. constructor. }
  destruct (status_fields demo_tempDir demo_parse demo_ToString _ "job-1"
              demo_job Hreach) as (_ & _ & Hq).
  - vm_compute. reflexivity.
  - apply Hq. reflexivity.
Defined.

(* ===================================================================== *)
(** * What no step changes *)
(* ===================================================================== *)

Section Immutable.

Local Open Scope string_scope.

(** The fields of a job that are written once, at creation. *)
Lemma alter_identity (f : Job -> Job) (l l' : loc) (hp : gmap loc Job)
    (job : Job) :
  (forall j, job_id (f j) = job_id j /\ job_url (f j) = job_url j
             /\ metadata (f j) = metadata j /\ createdAt (f j) = createdAt j) ->
  hp !! l' = Some job ->
  exists job',
    alter f l hp !! l' = Some job'
    /\ job_id job' = job_id job /\ job_url job' = job_url job
    /\ metadata job' = metadata job /\ createdAt job' = createdAt job.
Proof.
  intros Hf Hl'. destruct (decide (l = l')) as [->|Hne].
  - rewrite lookup_alter_eq, Hl'. eexists. split; [reflexivity|]. apply Hf.
  - rewrite lookup_alter_ne by exact Hne. exists job. auto.
Qed.

Lemma parse_progress_identity (output : string) (j : Job) :
  job_id (parse_progress output j) = job_id j
  /\ job_url (parse_progress output j) = job_url j
  /\ metadata (parse_progress output j) = metadata j
  /\ createdAt (parse_progress output j) = createdAt j.
Proof.
  unfold parse_progress. destruct (Str.includes output "100%"); [auto|].
  destruct (Str.includes output "%"); [|auto].
  destruct (Str.match_percent output); auto.
Qed.

Lemma conv_step_identity (ev : ProcEvent) (cv : Conversion) (srv : Server)
    (l : loc) (job : Job) :
  heap srv !! l = Some job ->
  exists job',
    heap (conv_step ev (cv, srv)).2 !! l = Some job'
    /\ job_id job' = job_id job /\ job_url job' = job_url job
    /\ metadata job' = metadata job /\ createdAt job' = createdAt job.
Proof.
  intros Hl.
  assert (Hsame : exists job',
            heap srv !! l = Some job'
            /\ job_id job' = job_id job /\ job_url job' = job_url job
            /\ metadata job' = metadata job /\ createdAt job' = createdAt job)
    by (exists job; auto).
  destruct ev as [d|output|path|code now|]; cbn [conv_step snd fst];
    try exact Hsame.
  - unfold on_stderr_data. destruct (Str.includes output "[download]");
      cbn [snd]; [|exact Hsame].
    apply alter_identity; [apply parse_progress_identity|exact Hl].
  - unfold on_close.
    destruct code as [[| |]|];
      try (cbn [snd]; apply alter_identity; [auto|exact Hl]).
    destruct (find _ _) as [[|c f]|]; cbn [snd];
      (apply alter_identity; [auto|exact Hl]).
  - unfold on_timeout. cbn [snd]. apply alter_identity; [auto|exact Hl].
Qed.

Variable tempDir : string.
Variable JSON_parse : string -> option json.
Variable ToString : json -> string.

Lemma server_step_identity (srv srv' : Server) (l : loc) (job : Job) :
  server_step tempDir JSON_parse ToString srv srv' ->
  heap srv !! l = Some job ->
  exists job',
    heap srv' !! l = Some job'
    /\ job_id job' = job_id job /\ job_url job' = job_url job
    /\ metadata job' = metadata job /\ createdAt job' = createdAt job.
Proof.
  intros Hstep Hl.
  assert (Hsame : forall s, heap s = heap srv ->
            exists job',
              heap s !! l = Some job'
              /\ job_id job' = job_id job /\ job_url job' = job_url job
              /\ metadata job' = metadata job /\ createdAt job' = createdAt job).
  { intros s ->. exists job. auto. }
  destruct Hstep as [url evs uuid now srv|jobId format quality now srv
                    |ev cv srv job0 Hcv Hq|filePath jobId srv|now srv].
  - unfold api_prepare.
    destruct url as [[|c u]|]; try (apply Hsame; reflexivity).
    destruct (isValidYouTubeUrl (String c u)); [|apply Hsame; reflexivity].
    unfold getVideoMetadata.
    destruct (p_promise _) as [[m|msg]|]; cbn [fst snd];
      try (apply Hsame; reflexivity).
    exists job. split; [|auto]. cbn [heap jobs_set spawn].
    rewrite lookup_insert_ne; [exact Hl|].
    pose proof (is_fresh (dom (heap srv))) as Hfresh.
    apply not_elem_of_dom in Hfresh. congruence.
  - unfold api_convert.
    destruct jobId as [[|c i]|]; try (apply Hsame; reflexivity).
    destruct (jobs srv !! String c i) as [l0|] eqn:Hkey;
      [|apply Hsame; reflexivity].
    destruct (_ || _); [|apply Hsame; reflexivity].
    destruct (jobs_get (String c i) srv) as [job1|];
      [|apply Hsame; reflexivity].
    unfold performConversion. rewrite Hkey.
    destruct (heap srv !! l0) as [job2|]; [|apply Hsame; reflexivity].
    cbn [snd]. unfold spawn, jobs_set, update_job. cbn [heap].
    apply alter_identity; [auto|exact Hl].
  - apply conv_step_identity, Hl.
  - apply Hsame. reflexivity.
  - apply Hsame. unfold api_cleanup.
    pose proof (swept_all (now - CLEANUP_MAX_AGE) srv (jobs srv))
      as (Hheap & _).
    fold (sweep (now - CLEANUP_MAX_AGE) srv) in Hheap.
    destruct (sweep (now - CLEANUP_MAX_AGE) srv) as [s n]. exact Hheap.
Qed.

(** X9.  No request, conversion event or timer ever changes the id,
    the URL, the metadata or the creation time of a job: after any
    number of steps of the server a job object still carries the ones
    it was created with. *)
Theorem job_identity_immutable (srv srv' : Server) (l : loc) (job : Job) :
  rtc (server_step tempDir JSON_parse ToString) srv srv' ->
  heap srv !! l = Some job ->
  exists job',
    heap srv' !! l = Some job'
    /\ job_id job' = job_id job /\ job_url job' = job_url job
    /\ metadata job' = metadata job /\ createdAt job' = createdAt job.
Proof.
  intros Hsteps. revert job.
  induction Hsteps as [s|s1 s2 s3 Hstep _ IH]; intros job Hl.
  - exists job. auto.
  - destruct (server_step_identity s1 s2 l job Hstep Hl)
      as (job1 & H1 & Hi & Hu & Hm & Hc).
    destruct (IH job1 H1) as (job' & H' & Hi' & Hu' & Hm' & Hc').
    exists job'. split; [exact H'|]. repeat split; congruence.
Qed.

End Immutable.

Lemma job_identity_immutable_witness :
  exists job',
    heap (conv_step TimerFired (demo_conversion, demo_started)).2 !! 1%positive
    = Some job'
    /\ metadata job' = demo_metadata /\ createdAt job' = 1000%Z.
Proof.
  assert (Hstep : rtc (server_step demo_tempDir demo_parse demo_ToString)
            demo_started (conv_step TimerFired (demo_conversion, demo_started)).2).
  { apply rtc_once.
    apply (step_conversion demo_tempDir demo_parse demo_ToString TimerFired
             demo_conversion demo_started
             (set_progress (num 10) (set_status DOWNLOADING demo_job)));
      [reflexivity|discriminate]. }
  destruct (job_identity_immutable demo_tempDir demo_parse demo_ToString
              demo_started _ 1%positive
              (set_progress (num 10) (set_status DOWNLOADING demo_job))
              Hstep eq_refl) as (job' & Hj & _ & _ & Hm & Hc).
  exists job'. split; [exact Hj|]. split; assumption.
Defined.

(* ===================================================================== *)
(** * The message of the status endpoint *)
(* ===================================================================== *)

Section StatusMessage.

Local Open Scope string_scope.

(** Before the process exits, the events of a conversion keep the entry
    of the job in the map and do not set its output path. *)
Lemma conv_run_no_close (evs : list ProcEvent) (cv : Conversion)
    (srv : Server) (job : Job) :
  no_close evs = true ->
  jobs srv !! cv_jobId cv = Some (cv_job cv) ->
  heap srv !! cv_job cv = Some job ->
  exists job',
    jobs_get (cv_jobId cv) (conv_run evs (cv, srv)).2 = Some job'
    /\ outputPath job' = outputPath job.
Proof.
  revert cv srv job. induction evs as [|ev evs IH]; intros cv srv job Hnc Hk Hj.
  - exists job. split; [|reflexivity]. unfold jobs_get. cbn.
    rewrite Hk. cbn. exact Hj.
  - cbn [no_close forallb] in Hnc. apply andb_true_iff in Hnc as [Hev Hnc].
    change (conv_run (ev :: evs) (cv, srv))
      with (conv_run evs (conv_step ev (cv, srv))).
    assert (Hstep : exists job1,
      heap (conv_step ev (cv, srv)).2 !! cv_job cv = Some job1
      /\ outputPath job1 = outputPath job
      /\ jobs (conv_step ev (cv, srv)).2 !! cv_jobId cv = Some (cv_job cv)
      /\ cv_job (conv_step ev (cv, srv)).1 = cv_job cv
      /\ cv_jobId (conv_step ev (cv, srv)).1 = cv_jobId cv).
    { destruct ev as [d|output|path|code t|]; try discriminate Hev;
        cbn [conv_step fst snd].
      - exists job. auto.
      - unfold on_stderr_data.
        destruct (Str.includes output "[download]"); cbn [fst snd].
        + rewrite conv_job_update, Hj, jobs_set_lookup.
          eexists. split; [reflexivity|]. split; [|auto].
          unfold parse_progress.
          destruct (Str.includes output "100%"); [reflexivity|].
          destruct (Str.includes output "%"); [|reflexivity].
          destruct (Str.match_percent output); reflexivity.
        + exists job. auto.
      - exists job. auto.
      - unfold on_timeout. cbn [fst snd with_promise cv_job cv_jobId].
        rewrite conv_job_update, Hj, jobs_set_lookup.
        eexists. split; [reflexivity|]. auto. }
    destruct Hstep as (job1 & H1 & Ho & Hk1 & Hl & Hi).
    destruct (conv_step ev (cv, srv)) as [cv1 srv1]. cbn [fst snd] in *.
    rewrite <- Hl in H1. rewrite <- Hl, <- Hi in Hk1.
    destruct (IH cv1 srv1 job1 Hnc Hk1 H1) as (job' & Hj' & Ho').
    exists job'. rewrite <- Hi. split; [exact Hj'|congruence].
Qed.

(** X10.  While the first conversion of a job runs, the status
    endpoint never names the requested format: the output path is only
    set when the process exits, so whenever the status it reports is
    [CONVERTING] the message is ['Converting to MP4...'], also for a
    conversion to mp3. *)
Theorem converting_message (tempDir : string) (ToString : json -> string)
    (jobId url format : string) (quality : option string) (now : Z)
    (srv0 : Server) (job0 : Job) (cv : Conversion) (srv : Server)
    (evs : list ProcEvent) :
  jobs_get jobId srv0 = Some job0 -> outputPath job0 = None ->
  performConversion tempDir ToString jobId url format quality now srv0
  = Some (cv, srv) ->
  no_close evs = true ->
  exists job message,
    jobs_get jobId (conv_run evs (cv, srv)).2 = Some job
    /\ api_status jobId (conv_run evs (cv, srv)).2
       = Status (status job) (progress job) message (error job) (metadata job)
    /\ (status job = CONVERTING -> message = "Converting to MP4...").
Proof.
  intros Hjob0 Hout Hstart Hnc.
  unfold performConversion in Hstart. unfold jobs_get in Hjob0.
  destruct (jobs srv0 !! jobId) as [l|] eqn:Hl; [|discriminate].
  cbn in Hjob0. rewrite Hjob0 in Hstart. injection Hstart as <- <-.
  match goal with
  | |- context [conv_run evs (?c, ?s)] =>
      destruct (conv_run_no_close evs c s
                  (set_progress (num 10) (set_status DOWNLOADING job0)) Hnc)
        as (job & Hjob & Hpath)
  end.
  { cbn. apply lookup_insert_eq. }
  { cbn. rewrite lookup_alter_eq, Hjob0. reflexivity. }
  cbn [cv_jobId] in Hjob. cbn [outputPath set_progress set_status] in Hpath.
  exists job. unfold api_status. rewrite Hjob, Hpath, Hout.
  eexists. split; [reflexivity|]. split; [reflexivity|].
  intros ->. reflexivity.
Qed.

Lemma converting_message_witness :
  api_status "job-1"
    (conv_run [StderrData "[download] 100% of 3.00MiB in 00:02"]
       (demo_conversion, demo_started)).2
  = Status CONVERTING (num 80) "Converting to MP4..." None demo_metadata.
Proof.
  assert (Hstart :
    performConversion demo_tempDir demo_ToString "job-1"
      "https://youtu.be/aqz-KE-bpKQ" "mp3" None 2000 demo_server
    = Some (demo_conversion, demo_started)) by (vm_compute; reflexivity).
  destruct (converting_message demo_tempDir demo_ToString "job-1"
              "https://youtu.be/aqz-KE-bpKQ" "mp3" None 2000%Z demo_server
              demo_job demo_conversion demo_started
              [StderrData "[download] 100% of 3.00MiB in 00:02"]
              eq_refl eq_refl Hstart eq_refl)
    as (job & message & Hjob & Hstatus & Hmsg).
  assert (Hsame : Some job
                  = Some (set_progress (num 80) (set_status CONVERTING demo_job)))
    by (rewrite <- Hjob; vm_compute; reflexivity).
  injection Hsame as ->. rewrite Hstatus, (Hmsg eq_refl). reflexivity.
Defined.

End StatusMessage.
(* ===================================================================== *)
(** * More about the cleanup loop *)
(* ===================================================================== *)

Section SweepMore.

Local Open Scope string_scope.

(** The registry and the files after the loop, in terms of those
    before it. *)
Lemma sweep_spec (cutoff : Z) (srv : Server) :
  heap (sweep cutoff srv).1 = heap srv
  /\ (forall i,
        registry (sweep cutoff srv).1 !! i
        = match registry srv !! i with
          | Some job => if decide (expired cutoff job) then None else Some job
          | None => None
          end)
  /\ (forall p,
        existsSync (sweep cutoff srv).1 p = true <->
        existsSync srv p = true
        /\ ~ exists i job,
              registry srv !! i = Some job
              /\ expired cutoff job /\ outputPath job = Some p).
Proof.
  pose proof (swept_all cutoff srv (jobs srv)) as Hswept.
  fold (sweep cutoff srv) in Hswept.
  destruct Hswept as (Hheap & Hsp & Hjobs & Hdisk).
  split; [exact Hheap|]. split.
  - intros i. rewrite !registry_lookup. unfold jobs_get.
    rewrite Hjobs, Hheap. unfold is_expired.
    destruct (jobs srv !! i) as [l|] eqn:Hl; cbn; [|reflexivity].
    destruct (heap srv !! l) as [job|] eqn:Hjob; cbn; [|exact Hjob].
    unfold expired. destruct (createdAt job <? cutoff)%Z eqn:E.
    + apply Z.ltb_lt in E. rewrite decide_True by exact E. reflexivity.
    + apply Z.ltb_ge in E. rewrite decide_False by lia. cbn. exact Hjob.
  - intros p. rewrite Hdisk. split; intros [Hp Hno]; (split; [exact Hp|]).
    + intros (i & job & Hi & He & Ho). apply Hno.
      rewrite registry_lookup in Hi. unfold jobs_get in Hi.
      destruct (jobs srv !! i) as [l|] eqn:Hl; [|discriminate].
      exists i, l, job. auto.
    + intros (i & l & job & Hl & Hjob & He & Ho). apply Hno.
      exists i, job. rewrite registry_lookup. unfold jobs_get.
      rewrite Hl. cbn. auto.
Qed.

(** The counter of the loop counts the entries it deleted, and a loop
    that counted nothing changed nothing. *)
Lemma sweep_count (cutoff : Z) (srv : Server) (m : gmap string loc) :
  m ⊆ jobs srv ->
  (size (jobs (map_fold (cleanup_entry cutoff) (srv, O) m).1)
   + (map_fold (cleanup_entry cutoff) (srv, O) m).2 = size (jobs srv))%nat
  /\ ((map_fold (cleanup_entry cutoff) (srv, O) m).2 = O ->
      (map_fold (cleanup_entry cutoff) (srv, O) m).1 = srv).
Proof.
  induction m as [|i l m Hfresh Hfirst IH] using map_first_key_ind.
  - intros _. rewrite map_fold_empty. cbn. split; [lia|reflexivity].
  - intros Hsub.
    rewrite (map_fold_insert_first_key _ _ _ _ _ Hfresh Hfirst).
    assert (Hsub' : m ⊆ jobs srv).
    { etransitivity; [apply (insert_subseteq m i l Hfresh)|exact Hsub]. }
    destruct (IH Hsub') as [Hsize Hzero].
    pose proof (swept_all cutoff srv m) as (Hheap & _ & Hjobs & _).
    destruct (map_fold (cleanup_entry cutoff) (srv, O) m) as [s n].
    cbn [fst snd] in *. unfold cleanup_entry.
    destruct (heap s !! l) as [job|]; [|split; assumption].
    destruct (createdAt job <? cutoff)%Z; [|split; assumption].
    cbn [fst snd]. split; [|discriminate].
    assert (Hi : jobs s !! i = Some l).
    { rewrite Hjobs, Hfresh.
      apply (lookup_weaken _ _ _ _ (lookup_insert_eq m i l) Hsub). }
    set (s1 := match outputPath job with
               | Some filePath =>
                   if existsSync s filePath then fs_remove filePath s else s
               | None => s
               end).
    assert (Hs1 : jobs s1 = jobs s).
    { unfold s1. destruct (outputPath job) as [q|]; [|reflexivity].
      destruct (existsSync s q); reflexivity. }
    cbn [jobs_delete jobs]. rewrite Hs1.
    rewrite map_size_delete_Some by (rewrite Hi; eauto).
    assert (size (jobs s) <> O).
    { intros Hz. apply map_size_empty_inv in Hz. rewrite Hz in Hi.
      rewrite lookup_empty in Hi. discriminate. }
    lia.
Qed.

(** X11.  The number the cleanup endpoint reports is the number of
    entries it removed: the job count of the health endpoint drops by
    exactly that number, and a cleanup that reports 0 leaves the whole
    state as it was. *)
Theorem cleanup_count (now : Z) (uptime : number) (srv : Server) :
  exists cleanedJobs,
    (api_cleanup now srv).1 = Cleaned cleanedJobs
    /\ (h_jobs (api_health uptime (api_cleanup now srv).2) + cleanedJobs
        = h_jobs (api_health uptime srv))%nat
    /\ (cleanedJobs = O -> (api_cleanup now srv).2 = srv).
Proof.
  unfold api_cleanup, api_health. cbn [h_jobs].
  destruct (sweep_count (now - CLEANUP_MAX_AGE) srv (jobs srv)) as [Hsize Hzero];
    [reflexivity|].
  fold (sweep (now - CLEANUP_MAX_AGE) srv) in Hsize, Hzero.
  destruct (sweep (now - CLEANUP_MAX_AGE) srv) as [s n]. cbn [fst snd] in *.
  exists n. split; [reflexivity|]. split; assumption.
Qed.

(** X12.  Sweeps compose by their cutoffs: after a sweep with a cutoff,
    a sweep with an earlier cutoff finds nothing to remove, and a sweep
    with a later cutoff leaves the registry and the files that a single
    sweep with the later cutoff leaves. *)
Theorem sweep_compose (c1 c2 : Z) (srv : Server) :
  (c1 <= c2)%Z ->
  sweep c1 (sweep c2 srv).1 = ((sweep c2 srv).1, O)
  /\ registry (sweep c2 (sweep c1 srv).1).1 = registry (sweep c2 srv).1
  /\ (forall p,
        existsSync (sweep c2 (sweep c1 srv).1).1 p
        = existsSync (sweep c2 srv).1 p).
Proof.
  intros Hle.
  destruct (sweep_spec c2 srv) as (Hh2 & Hr2 & Hd2).
  destruct (sweep_spec c1 srv) as (Hh1 & Hr1 & Hd1).
  destruct (sweep_spec c2 (sweep c1 srv).1) as (Hh12 & Hr12 & Hd12).
  split; [|split].
  - unfold sweep at 1. apply sweep_nothing. cbn [fst].
    intros i l Hl. unfold is_expired.
    destruct (heap (sweep c2 srv).1 !! l) as [job|] eqn:Hjob; [|reflexivity].
    apply Z.ltb_ge.
    assert (Hi : registry (sweep c2 srv).1 !! i = Some job).
    { rewrite registry_lookup. unfold jobs_get. rewrite Hl. exact Hjob. }
    rewrite Hr2 in Hi. destruct (registry srv !! i) as [job0|]; [|discriminate].
    destruct (decide (expired c2 job0)) as [He|He]; [discriminate|].
    injection Hi as ->. unfold expired in He. lia.
  - apply map_eq. intros i. rewrite Hr12, Hr1, Hr2.
    destruct (registry srv !! i) as [job|]; [|reflexivity].
    destruct (decide (expired c1 job)) as [He1|He1].
    + rewrite decide_True; [reflexivity|]. unfold expired in *. lia.
    + reflexivity.
  - intros p. apply eq_true_iff_eq. rewrite Hd12, Hd1, Hd2. split.
    + intros [[Hp Hno1] Hno2]. split; [exact Hp|].
      intros (i & job & Hi & He & Ho).
      destruct (decide (expired c1 job)) as [He1|He1].
      * apply Hno1. eauto 10.
      * apply Hno2. exists i, job. rewrite Hr1, Hi.
        rewrite decide_False by exact He1. auto.
    + intros [Hp Hno]. split; [split; [exact Hp|]|].
      * intros (i & job & Hi & He & Ho). apply Hno. exists i, job.
        split; [exact Hi|]. split; [|exact Ho]. unfold expired in *. lia.
      * intros (i & job & Hi & He & Ho). apply Hno. exists i, job.
        rewrite Hr1 in Hi. destruct (registry srv !! i) as [job0|];
          [|discriminate].
        destruct (decide (expired c1 job0)); [discriminate|].
        injection Hi as ->. auto.
Qed.

Lemma sweep_compose_witness :
  sweep 500 (sweep 2000 demo_server).1 = ((sweep 2000 demo_server).1, O).
Proof.
  destruct (sweep_compose 500 2000 demo_server) as [H _]; [lia|exact H].
Defined.

End SweepMore.
(* ===================================================================== *)
(** * The first percentage of a chunk *)
(* ===================================================================== *)

Section FirstMatch.

Local Open Scope string_scope.









End FirstMatch.
